(** * world-builder: the authorization and input-safety layer

    A shallow embedding of
      - src/types/security.ts            (module [Security]),
      - src/services/PermissionService.ts (module [PermissionService]),
      - the ValidationService            (module [ValidationService]),
      - SecureComponent / useSecureData  (module [SecureComponent]),
    followed by the properties established about them.

    JavaScript values are modelled by [jsval]; objects used as records
    ([Record<string, unknown>]) are finite maps from property names to
    values.  Thrown exceptions are explicit: a computation returns a
    [result], and the React effect threads a [world] holding the component
    state and the log of calls made to the validation service. *)

From Stdlib Require Import ZArith Bool.
From stdpp Require Import base option list strings gmap fin_maps pretty.

Set Warnings "-register-all".

#[local] Open Scope string_scope.

(* ===================================================================== *)
(** ** JavaScript values *)
(* ===================================================================== *)

Module JS.

(** The values that cross the validation boundary.  Numbers are kept to
    the integer-valued ones and [NaN]: no claim depends on fractions.
    [JDate] carries the epoch milliseconds. *)
Inductive jsval : Type :=
  | JUndefined
  | JNull
  | JBool (b : bool)
  | JNum (n : Z)
  | JNaN
  | JStr (s : string)
  | JDate (t : Z)
  | JArr (l : list jsval)
  | JObj (m : gmap string jsval).

(** [typeof v] *)
Definition typeof (v : jsval) : string :=
  match v with
  | JUndefined => "undefined"
  | JNull => "object"
  | JBool _ => "boolean"
  | JNum _ | JNaN => "number"
  | JStr _ => "string"
  | JDate _ | JArr _ | JObj _ => "object"
  end.

(** [v === null] *)
Definition is_null (v : jsval) : bool :=
  match v with JNull => true | _ => false end.

(** ToBoolean: the falsy values are [undefined], [null], [false], [0],
    [NaN] and the empty string. *)
Definition truthy (v : jsval) : bool :=
  match v with
  | JUndefined | JNull | JNaN => false
  | JBool b => b
  | JNum n => negb (n =? 0)%Z
  | JStr s => negb (String.eqb s "")
  | JDate _ | JArr _ | JObj _ => true
  end.

(** The own enumerable properties of an object, as the spread
    [{ ...obj }] copies them: a plain object's fields, an array's
    elements under their decimal indices, nothing for a [Date]. *)
Definition own_props (v : jsval) : gmap string jsval :=
  match v with
  | JObj m => m
  | JArr l => list_to_map (imap (fun i x => (pretty i, x)) l)
  | _ => ∅
  end.

(** [field in obj] and [obj[field]] for the names the sanitizer looks at.
    None of [Object.prototype], [Array.prototype] and [Date.prototype]
    defines [content], [description], [notes] or [html], and an array's own
    properties are its indices and [length]: for these names only a plain
    object can answer. *)
Definition get_field (v : jsval) (field : string) : option jsval :=
  match v with
  | JObj m => m !! field
  | _ => None
  end.

(** Truthiness of an optional string ([scope?: string]). *)
Definition truthy_str (s : option string) : bool :=
  match s with
  | None => false
  | Some s => negb (String.eqb s "")
  end.

(** [a === b] on optional strings ([undefined] is [None]). *)
Definition strict_eq (a b : option string) : bool := bool_decide (a = b).

End JS.

(* ===================================================================== *)
(** ** src/types/security.ts *)
(* ===================================================================== *)

Module Security.
Import JS.

Inductive PermissionAction : Set :=
  | Create | Read | Update | Delete | Execute | Configure.

Inductive PermissionScope : Set := Own | Project | Global.

#[global] Instance PermissionAction_eq_dec : EqDecision PermissionAction.
Proof. solve_decision. Defined.

#[global] Instance PermissionScope_eq_dec : EqDecision PermissionScope.
Proof. solve_decision. Defined.

(** The string a scope is at run time. *)
Definition scope_str (s : PermissionScope) : string :=
  match s with
  | Own => "own"
  | Project => "project"
  | Global => "global"
  end.

Record Permission : Type := mkPermission {
  resource : string;
  action : PermissionAction;
  scope : option PermissionScope
}.

(** [Omit<Permission, 'scope'>] *)
Record ScopelessPermission : Type := mkScopeless {
  sl_resource : string;
  sl_action : PermissionAction
}.

(** [{ ...requiredPermission, scope: s }] *)
Definition with_scope (p : ScopelessPermission) (s : PermissionScope) : Permission :=
  {| resource := sl_resource p; action := sl_action p; scope := Some s |}.

Record User : Type := mkUser {
  id : string;
  email : string;
  permissions : list Permission;
  isActive : bool;
  lastLogin : option Z
}.

Inductive SecurityErrorCode : Set :=
  | PERMISSION_DENIED
  | INVALID_INPUT
  | SANDBOX_VIOLATION
  | AUTHENTICATION_REQUIRED
  | RATE_LIMIT_EXCEEDED.

(** One entry of a [ZodError]'s [issues]: where and what. *)
Inductive PathSegment : Type :=
  | Key (k : string)
  | Index (i : nat).

Record ZodIssue : Type := mkIssue {
  issue_code : string;
  path : list PathSegment;
  issue_message : string
}.

(** The [details] objects the code builds, one constructor per call site. *)
Inductive Details : Type :=
  | RequireDetails (userId : string) (requiredPermission : Permission)
                   (resource' : option string)
  | GateDetails (requiredPermissions : list Permission) (userId : string)
  | ValidationDetails (issues : list ZodIssue) (received : jsval)
  | SanitizeDetails (content : string).

Record SecurityError : Type := mkSecurityError {
  message : string;
  code : SecurityErrorCode;
  details : option Details
}.

(** What a [throw] can carry: a [SecurityError], a [ZodError] with its
    issues, or any other [Error]. *)
Inductive exn : Type :=
  | ExSecurity (e : SecurityError)
  | ExZod (issues : list ZodIssue)
  | ExOther (msg : string).

(** The outcome of a call that may throw. *)
Inductive result (A : Type) : Type :=
  | Ok (a : A)
  | Throw (e : exn).
Arguments Ok {A} a.
Arguments Throw {A} e.

(** Sequencing: a [Throw] skips the rest, as an exception does. *)
#[global] Instance result_ret : MRet result := fun _ a => Ok a.
#[global] Instance result_bind : MBind result := fun _ _ k r =>
  match r with
  | Ok a => k a
  | Throw e => Throw e
  end.

(** [z.ZodSchema<T>]: the schema is used through [schema.parse] only. *)
Record ZodSchema : Type := mkSchema {
  parse : jsval -> result jsval
}.

End Security.

(* ===================================================================== *)
(** ** src/services/PermissionService.ts *)
(* ===================================================================== *)

Module PermissionService.
Import JS Security.

Definition scopeMatches (userScope requiredScope : option string) : bool :=
  (* If no scope specified on either, it matches *)
  if negb (truthy_str userScope) && negb (truthy_str requiredScope) then true
  (* Global permissions can access anything *)
  else if strict_eq userScope (Some "global") then true
  (* Project permissions can access project and own items *)
  else if strict_eq userScope (Some "project")
          && (strict_eq requiredScope (Some "project")
              || strict_eq requiredScope (Some "own")) then true
  (* Own permissions can only access own items *)
  else if strict_eq userScope (Some "own")
          && strict_eq requiredScope (Some "own") then true
  (* Exact match for any other cases *)
  else strict_eq userScope requiredScope.

Definition permissionsMatch (userPermission requiredPermission : Permission) : bool :=
  if negb (String.eqb (resource userPermission) (resource requiredPermission))
  then false
  else if negb (bool_decide (action userPermission = action requiredPermission))
  then false
  else scopeMatches (scope_str <$> scope userPermission)
                    (scope_str <$> scope requiredPermission).

Definition hasPermission (user : User) (permission : Permission) : bool :=
  if negb (isActive user) then false
  else existsb (fun userPermission => permissionsMatch userPermission permission)
               (permissions user).

Definition hasAnyPermission (user : User) (permissions : list Permission) : bool :=
  existsb (fun permission => hasPermission user permission) permissions.

(** The callback of [items.filter] takes no argument: the item is never
    looked at. *)
Definition filterByPermissions {T : Type} (user : User) (items : list T)
    (requiredPermission : ScopelessPermission) : list T :=
  List.filter (fun _ =>
    let globalPermission := with_scope requiredPermission Global in
    if hasPermission user globalPermission then true
    else
      let projectPermission := with_scope requiredPermission Project in
      if hasPermission user projectPermission then true
      else
        let ownPermission := with_scope requiredPermission Own in
        hasPermission user ownPermission) items.

Definition action_str (a : PermissionAction) : string :=
  match a with
  | Create => "create" | Read => "read" | Update => "update"
  | Delete => "delete" | Execute => "execute" | Configure => "configure"
  end.

Definition requirePermission (user : User) (permission : Permission)
    (resource : option string) : result unit :=
  if negb (hasPermission user permission) then
    Throw (ExSecurity
      {| message := "Permission denied: " ++ action_str (action permission)
                    ++ " on " ++ Security.resource permission;
         code := PERMISSION_DENIED;
         details := Some (RequireDetails (id user) permission resource) |})
  else Ok tt.

Definition getPermissionsForResource (user : User) (resource : string)
    : list Permission :=
  List.filter (fun permission => String.eqb (Security.resource permission) resource)
              (permissions user).

Definition isGlobalAdmin (user : User) : bool :=
  hasPermission user
    {| resource := "*"; action := Configure; scope := Some Global |}.

End PermissionService.


(* ===================================================================== *)
(** ** The ValidationService (validate, sanitizeHtml, validateAndSanitize) *)
(* ===================================================================== *)

Module ValidationService.
Import JS Security.

(** The configuration object handed to DOMPurify. *)
Record Config : Type := mkConfig {
  ALLOWED_TAGS : list string;
  ALLOWED_ATTR : list string;
  ALLOWED_URI_REGEXP : string;
  ADD_ATTR : list string;
  FORBID_TAGS : list string;
  FORBID_ATTR : list string
}.

Definition config : Config :=
  {| ALLOWED_TAGS :=
       ["p"; "br"; "strong"; "em"; "u"; "h1"; "h2"; "h3"; "h4"; "h5"; "h6";
        "ul"; "ol"; "li"; "blockquote"; "code"; "pre"; "a"; "img"; "table";
        "thead"; "tbody"; "tr"; "th"; "td"; "div"; "span"; "hr"];
     ALLOWED_ATTR :=
       ["href"; "src"; "alt"; "title"; "class"; "id"; "style";
        "target"; "rel"; "width"; "height"];
     ALLOWED_URI_REGEXP :=
       "/^(?:(?:(?:f|ht)tps?|mailto|tel|callto|cid|xmpp|xxx):|[^a-z]|[a-z+.\-]+(?:[^a-z+.\-:]|$))/i";
     ADD_ATTR := ["target"];
     FORBID_TAGS := ["script"; "object"; "embed"; "form"; "input"; "button"];
     FORBID_ATTR := ["onclick"; "onerror"; "onload"; "onmouseover"] |}.

Definition htmlFields : list string := ["content"; "description"; "notes"; "html"].

(** [field in m && typeof m[field] === 'string'], with the string found. *)
Definition string_field (m : gmap string jsval) (field : string) : option string :=
  match m !! field with
  | Some (JStr s) => Some s
  | _ => None
  end.

(** [for (const x of xs) { ... await ... }] over a loop state. *)
Fixpoint for_of {A S : Type} (xs : list A) (body : S -> A -> result S) (s : S)
    : result S :=
  match xs with
  | [] => Ok s
  | x :: rest => s' ← body s x; for_of rest body s'
  end.

Section WithDOMPurify.

(** [DOMPurify.sanitize(content, config)], the third-party sanitizer:
    [None] when it throws. *)
Variable domPurify_sanitize : string -> Config -> option string.

Definition validate (data : jsval) (schema : ZodSchema) : result jsval :=
  match parse schema data with
  | Ok v => Ok v
  | Throw (ExZod issues) =>
      Throw (ExSecurity
        {| message := "Input validation failed";
           code := INVALID_INPUT;
           details := Some (ValidationDetails issues data) |})
  | Throw error =>
      (* Re-throw unexpected errors *)
      Throw error
  end.

Definition sanitizeHtml (content : string) : result string :=
  match domPurify_sanitize content config with
  | Some clean => Ok clean
  | None =>
      Throw (ExSecurity
        {| message := "HTML sanitization failed";
           code := INVALID_INPUT;
           details := Some (SanitizeDetails (String.substring 0 100 content ++ "...")) |})
  end.

Definition containsHtmlContent (obj : jsval) : bool :=
  if negb (String.eqb (typeof obj) "object") || is_null obj then false
  else existsb (fun field =>
         match get_field obj field with
         | Some v => String.eqb (typeof v) "string"
         | None => false
         end) htmlFields.

(** One turn of the loop of [sanitizeHtmlInObject]. *)
Definition sanitizeField (result : gmap string jsval) (field : string)
    : Security.result (gmap string jsval) :=
  match string_field result field with
  | Some s =>
      clean ← sanitizeHtml s;
      Ok (<[field := JStr clean]> result)
  | None => Ok result
  end.

Definition sanitizeHtmlInObject (obj : jsval) : result jsval :=
  if negb (String.eqb (typeof obj) "object") || is_null obj then Ok obj
  else
    let result := own_props obj in
    result ← for_of htmlFields sanitizeField result;
    Ok (JObj result).

Definition validateAndSanitize (data : jsval) (schema : ZodSchema) : result jsval :=
  (* First validate the structure *)
  validatedData ← validate data schema;
  (* If the data contains HTML content, sanitize it *)
  if containsHtmlContent validatedData then sanitizeHtmlInObject validatedData
  else Ok validatedData.

End WithDOMPurify.

(** What the sanitizing pass does to the field [k] holding [v], given
    the sanitizer's image [clean] of a string: a string under one of the
    four names is replaced, anything else is kept. *)
Definition field_image (clean : string -> string) (k : string) (v : jsval) : jsval :=
  match v with
  | JStr s => if bool_decide (k ∈ htmlFields) then JStr (clean s) else v
  | _ => v
  end.

End ValidationService.

(* ===================================================================== *)
(** ** SecureComponent and useSecureData: the authorization gate *)
(* ===================================================================== *)

Module SecureComponent.
Import JS Security.

Record SecureComponentState : Type := mkState {
  isAuthorized : bool;
  validatedData : jsval;
  error : option SecurityError;
  isLoading : bool
}.

(** [useState({ isAuthorized: false, isLoading: true })] *)
Definition initialState : SecureComponentState :=
  {| isAuthorized := false; validatedData := JUndefined; error := None;
     isLoading := true |}.

(** The state the effect sets on success ... *)
Definition Authorized (validatedData : jsval) : SecureComponentState :=
  {| isAuthorized := true; validatedData := validatedData; error := None;
     isLoading := false |}.

(** ... and in its [catch]. *)
Definition Denied (securityError : SecurityError) : SecureComponentState :=
  {| isAuthorized := false; validatedData := JUndefined;
     error := Some securityError; isLoading := false |}.

(** What the effect acts on: the component state, and the data of every
    call made to [validationService.validateAndSanitize], oldest first. *)
Record world : Type := mkWorld {
  state : SecureComponentState;
  calls : list jsval
}.

(** The world an effect leaves behind. *)
Definition run {A} (c : world -> world * A) (w : world) : world := fst (c w).

(** An effectful computation that may throw. *)
Definition Effect (A : Type) : Type := world -> world * result A.

Definition pure {A} (a : A) : Effect A := fun w => (w, Ok a).

Definition throw {A} (e : exn) : Effect A := fun w => (w, Throw e).

Definition andThen {A B} (c : Effect A) (k : A -> Effect B) : Effect B :=
  fun w =>
    match c w with
    | (w', Ok a) => k a w'
    | (w', Throw e) => (w', Throw e)
    end.

Definition tryCatch {A} (body : Effect A) (handler : exn -> Effect A) : Effect A :=
  fun w =>
    match body w with
    | (w', Ok a) => (w', Ok a)
    | (w', Throw e) => handler e w'
    end.

Definition setState (f : SecureComponentState -> SecureComponentState) : Effect unit :=
  fun w => ({| state := f (state w); calls := calls w |}, Ok tt).

Notation "'do' x <- c ; k" := (andThen c (fun x => k))
  (at level 10, x name, c at level 100, k at level 200).
Notation "c ;; k" := (andThen c (fun _ => k))
  (at level 100, k at level 200, right associativity).

Section Gate.

Variable domPurify_sanitize : string -> ValidationService.Config -> option string.

(** [await validationService.validateAndSanitize(data, schema)] *)
Definition validateAndSanitize (data : jsval) (schema : ZodSchema) : Effect jsval :=
  fun w =>
    ({| state := state w; calls := (calls w ++ [data])%list |},
     ValidationService.validateAndSanitize domPurify_sanitize data schema).

Variable user : User.
Variable requiredPermissions : list Permission.
Variable data : jsval.
Variable validationSchema : option ZodSchema.

(** [requiredPermissions.length === 0 || hasAnyPermission(user, requiredPermissions)] *)
Definition hasPermissions : bool :=
  (length requiredPermissions =? 0)%nat
  || PermissionService.hasAnyPermission user requiredPermissions.

(** The body of the effect of [SecureComponent]. *)
Definition validateAndAuthorize : Effect unit :=
  tryCatch
    (setState (fun prev =>
       {| isAuthorized := isAuthorized prev; validatedData := validatedData prev;
          error := None; isLoading := true |}) ;;
     (* Step 1: Check permissions *)
     (if negb hasPermissions then
        throw (ExSecurity
          {| message := "Insufficient permissions";
             code := PERMISSION_DENIED;
             details := Some (GateDetails requiredPermissions (id user)) |})
      else pure tt) ;;
     (* Step 2: Validate data if provided *)
     do validatedData <-
       match (if truthy data then validationSchema else None) with
       | Some schema => validateAndSanitize data schema
       | None => pure JUndefined
       end;
     (* Step 3: Update state with successful authorization *)
     setState (fun _ => Authorized validatedData))
    (fun error =>
       let securityError :=
         match error with
         | ExSecurity e => e
         | _ => {| message := "Unknown security error"; code := INVALID_INPUT;
                   details := None |}
         end in
       setState (fun _ => Denied securityError)).

(** The body of the effect of the hook [useSecureData]. *)
Definition useSecureData_validateAndAuthorize : Effect unit :=
  tryCatch
    (setState (fun prev =>
       {| isAuthorized := isAuthorized prev; validatedData := validatedData prev;
          error := None; isLoading := true |}) ;;
     (* Check permissions *)
     (if negb hasPermissions then
        throw (ExSecurity
          {| message := "Insufficient permissions";
             code := PERMISSION_DENIED;
             details := Some (GateDetails requiredPermissions (id user)) |})
      else pure tt) ;;
     (* Validate data if provided *)
     do validatedData <-
       match (if truthy data then validationSchema else None) with
       | Some schema => validateAndSanitize data schema
       | None => pure JUndefined
       end;
     setState (fun _ => Authorized validatedData))
    (fun error =>
       let securityError :=
         match error with
         | ExSecurity e => e
         | _ => {| message := "Unknown security error"; code := INVALID_INPUT;
                   details := None |}
         end in
       setState (fun _ => Denied securityError)).

End Gate.

(** What [SecureComponent] renders for a state. *)
Inductive View : Type :=
  | LoadingComponent
  | FallbackComponent
  | Children (s : SecureComponentState).

Definition render (s : SecureComponentState) : View :=
  if isLoading s then LoadingComponent
  else if negb (isAuthorized s) || bool_decide (is_Some (error s)) then FallbackComponent
  else Children s.

End SecureComponent.


(* ===================================================================== *)
(** ** PermissionGuard and SecurityErrorBoundary *)
(* ===================================================================== *)

Module PermissionGuard.
Import JS Security.

(** [PermissionGuard({ user, requiredPermissions, children, fallback })]:
    the node it renders. *)
Definition PermissionGuard {Node : Type} (user : User)
    (requiredPermissions : list Permission) (children fallback : Node) : Node :=
  let hasPermission :=
    (length requiredPermissions =? 0)%nat
    || PermissionService.hasAnyPermission user requiredPermissions in
  if hasPermission then children else fallback.

End PermissionGuard.

Module SecurityErrorBoundary.
Import JS Security.

Record SecurityErrorBoundaryState : Type := mkBoundaryState {
  hasError : bool;
  error : option SecurityError
}.

(** [this.state = { hasError: false }] *)
Definition initialState : SecurityErrorBoundaryState :=
  {| hasError := false; error := None |}.

Definition getDerivedStateFromError (thrown : exn) : SecurityErrorBoundaryState :=
  match thrown with
  | ExSecurity e => {| hasError := true; error := Some e |}
  | _ =>
      {| hasError := true;
         error := Some {| message := "Unknown security error";
                          code := INVALID_INPUT; details := None |} |}
  end.

(** [render()]: [fallback] is the optional render prop, [notice] the
    built-in "A security error occurred" node. *)
Definition render {Node : Type} (state : SecurityErrorBoundaryState)
    (children : Node) (fallback : option (SecurityError -> Node)) (notice : Node)
    : Node :=
  match (if hasError state then error state else None) with
  | Some e =>
      match fallback with
      | Some f => f e
      | None => notice
      end
  | None => children
  end.

End SecurityErrorBoundary.

(* ===================================================================== *)
(** ** block-editor.js: the BlockSystem *)
(* ===================================================================== *)

Module BlockSystem.

(** The double quote, which a string literal cannot hold. *)
Definition dq : string := String (Ascii.ascii_of_nat 34) EmptyString.

(** A [div] the code creates: its class and the markup assigned to
    [innerHTML]. *)
Record Element : Type := mkElement {
  className : string;
  innerHTML : string
}.

(** The options [new Editor({...})] is given: the id the mount element is
    looked up by, the placeholder and the initial content. *)
Record Editor : Type := mkEditor {
  element_id : string;
  editor_placeholder : string;
  editor_content : string
}.

Record Block : Type := mkBlock {
  id : string;
  type : string;
  element : Element;
  editor : option Editor
}.

(** What the code does to the document and to Tiptap, in order. *)
Inductive Event : Type :=
  | AppendChild (el : Element)
  | RemoveElement (el : Element)
  | DestroyEditor (e : Editor)
  | FocusLater (e : Editor).

(** The object's fields, and the trace of its outside calls. *)
Record BlockSystem : Type := mkBlockSystem {
  blocks : list Block;
  editors : gmap string Editor;
  trace : list Event
}.

(** [new BlockSystem(container)] *)
Definition new : BlockSystem :=
  {| blocks := []; editors := ∅; trace := [] |}.

(** The template literal assigned to [blockElement.innerHTML]. *)
Definition blockMarkup (blockId type : string) : string :=
  "
            <div class=" ++ dq ++ "block-actions" ++ dq ++ ">
                <button onclick=" ++ dq ++ "App.removeBlock('" ++ blockId ++ "')" ++ dq ++ ">×</button>
            </div>
            <div class=" ++ dq ++ "block-type" ++ dq ++ ">" ++ type ++ "</div>
            <div class=" ++ dq ++ "block-content" ++ dq ++ ">
                <div class=" ++ dq ++ "block-editor" ++ dq ++ " id=" ++ dq ++ blockId ++ dq ++ "></div>
            </div>
        ".

(** [`block-${Date.now()}-${Math.random().toString(36).slice(2, 11)}`],
    the clock reading and the random digits being given. *)
Definition blockId (now : Z) (random : string) : string :=
  "block-" ++ pretty now ++ "-" ++ random.

(** [a || b] on strings: the first unless it is empty. *)
Definition or_else (a b : string) : string :=
  if String.eqb a "" then b else a.

Definition createBlock (now : Z) (random : string)
    (type content placeholder : string) (this : BlockSystem)
    : BlockSystem * Block :=
  let blockId := blockId now random in
  let blockElement :=
    {| className := "block"; innerHTML := blockMarkup blockId type |} in
  let editor :=
    {| element_id := blockId;
       editor_placeholder :=
         or_else placeholder ("Start typing in this " ++ type ++ " block...");
       editor_content := content |} in
  let block :=
    {| id := blockId; type := type; element := blockElement; editor := Some editor |} in
  ({| blocks := blocks this ++ [block];
      editors := <[blockId := editor]> (editors this);
      trace := trace this ++ [AppendChild blockElement; FocusLater editor] |},
   block).

Definition removeBlock (blockId : string) (this : BlockSystem) : BlockSystem :=
  let destroyed :=
    match editors this !! blockId with
    | Some editor => [DestroyEditor editor]
    | None => []
    end in
  let removed :=
    List.filter (fun block => String.eqb (id block) blockId) (blocks this) in
  {| blocks := List.filter (fun block => negb (String.eqb (id block) blockId))
                           (blocks this);
     editors := delete blockId (editors this);
     trace := trace this ++ destroyed
              ++ List.map (fun block => RemoveElement (element block)) removed |}.

Section WithTiptap.

(** [editor.getHTML()], Tiptap's rendering of the editor's document. *)
Variable getHTML : Editor -> string.

(** One entry of [getBlocks()]. *)
Record BlockData : Type := mkBlockData {
  data_id : string;
  data_type : string;
  data_content : string
}.

Definition getBlocks (this : BlockSystem) : list BlockData :=
  List.map (fun block =>
    {| data_id := id block;
       data_type := type block;
       data_content :=
         match editor block with
         | Some e => getHTML e
         | None => ""
         end |}) (blocks this).

End WithTiptap.

(** The calls a client can make, and a run of them. *)
Inductive Call : Type :=
  | CreateBlock (now : Z) (random : string) (type content placeholder : string)
  | RemoveBlock (blockId : string).

Definition call (this : BlockSystem) (c : Call) : BlockSystem :=
  match c with
  | CreateBlock now random type content placeholder =>
      fst (createBlock now random type content placeholder this)
  | RemoveBlock blockId => removeBlock blockId this
  end.

Definition calls (cs : list Call) : BlockSystem := foldl call new cs.

(** The editor map and the block list in step: the ids with an editor
    are the ids of the blocks, and every block has its editor and its
    markup. *)
Definition in_sync (this : BlockSystem) : Prop :=
  (forall k, is_Some (editors this !! k) <-> exists b, b ∈ blocks this /\ id b = k) /\
  (forall b, b ∈ blocks this ->
     exists e, editor b = Some e /\ element_id e = id b /\
               element b = {| className := "block";
                              innerHTML := blockMarkup (id b) (type b) |}).

(** [BlockFactory] *)
Definition createTextBlock now random (content : string) this :=
  createBlock now random "text" content "Start writing..." this.
Definition createHeadingBlock now random (content : string) this :=
  createBlock now random "heading" content "Enter heading..." this.
Definition createQuoteBlock now random (content : string) this :=
  createBlock now random "quote" content "Enter quote..." this.
Definition createListBlock now random (content : string) this :=
  createBlock now random "list" content "Create a list..." this.

End BlockSystem.


(* ===================================================================== *)
(** ** Concrete users, permissions, schemas and a sanitizer stand-in,
       used to evaluate the definitions at explicit inputs *)
(* ===================================================================== *)

Module Fixtures.
Import JS Security.

Definition docsUpdate (s : option PermissionScope) : Permission :=
  {| resource := "docs"; action := Update; scope := s |}.

Definition adminPermission : Permission :=
  {| resource := "*"; action := Configure; scope := Some Global |}.

Definition userWith (active : bool) (perms : list Permission) : User :=
  {| id := "u-1"; email := "author@example.org"; permissions := perms;
     isActive := active; lastLogin := None |}.

(** A stand-in for DOMPurify that knows one input: it drops the
    [onclick] attribute of the paragraph below and returns anything else
    as it is. *)
Definition onclickParagraph : string := "<p onclick='steal()'>hi</p>".

Definition stripOnclick (content : string) (_ : ValidationService.Config)
    : option string :=
  Some (if String.eqb content onclickParagraph then "<p>hi</p>" else content).

(** An object schema with two required string fields, [title] and
    [content]; a missing field is reported under its own path. *)
Definition requiredString (m : gmap string jsval) (field : string) : list ZodIssue :=
  match m !! field with
  | Some (JStr _) => []
  | Some _ =>
      [{| issue_code := "invalid_type"; path := [Key field];
          issue_message := "Expected string" |}]
  | None =>
      [{| issue_code := "invalid_type"; path := [Key field];
          issue_message := "Required" |}]
  end.

Definition articleSchema : ZodSchema :=
  {| parse := fun data =>
       match data with
       | JObj m =>
           match (requiredString m "title" ++ requiredString m "content")%list with
           | [] => Ok data
           | issues => Throw (ExZod issues)
           end
       | _ =>
           Throw (ExZod [{| issue_code := "invalid_type"; path := [];
                            issue_message := "Expected object" |}])
       end |}.

(** [z.string().min(1)] *)
Definition nonEmptyString : ZodSchema :=
  {| parse := fun data =>
       match data with
       | JStr s =>
           if String.eqb s "" then
             Throw (ExZod [{| issue_code := "too_small"; path := [];
                              issue_message := "String must contain at least 1 character(s)" |}])
           else Ok data
       | _ =>
           Throw (ExZod [{| issue_code := "invalid_type"; path := [];
                            issue_message := "Expected string" |}])
       end |}.

(** A schema whose refinement throws an ordinary [Error]. *)
Definition throwingSchema : ZodSchema :=
  {| parse := fun _ => Throw (ExOther "refinement failed") |}.

(** A document-content object whose [content] carries an [onclick]. *)
Definition documentFields : gmap string jsval :=
  <["id" := JStr "7f1c"]>
  (<["title" := JStr "Harbour town"]>
  (<["content" := JStr onclickParagraph]>
  (<["contentType" := JStr "html"]>
  (<["metadata" := JObj (<["notes" := JStr onclickParagraph]> ∅)]>
  (<["createdAt" := JDate 1700000000000]>
  (<["updatedAt" := JDate 1700000000500]>
  (<["authorId" := JStr "u-1"]> ∅))))))).

Definition initialWorld : SecureComponent.world :=
  {| SecureComponent.state := SecureComponent.initialState;
     SecureComponent.calls := [] |}.

End Fixtures.

(** Further concrete inputs. *)
Module MoreFixtures.
Import JS Security.

Definition docsRead (s : option PermissionScope) : Permission :=
  {| resource := "docs"; action := Read; scope := s |}.

Definition mapsUpdate (s : option PermissionScope) : Permission :=
  {| resource := "maps"; action := Update; scope := s |}.

(** A sanitizer that always throws. *)
Definition brokenSanitizer (_ : string) (_ : ValidationService.Config)
    : option string := None.

(** A schema that accepts everything as it is. *)
Definition anySchema : ZodSchema := {| parse := fun data => Ok data |}.

(** Tiptap's rendering, taken to be the content the editor was given. *)
Definition contentAsHTML (e : BlockSystem.Editor) : string :=
  BlockSystem.editor_content e.

End MoreFixtures.


(* ===================================================================== *)
(** ** Properties of the permission engine *)
(* ===================================================================== *)

Import JS Security PermissionService.

Lemma strict_eq_true (a b : option string) : strict_eq a b = true <-> a = b.
Proof. unfold strict_eq. apply bool_decide_eq_true. Qed.

(** The scope comparison on the three scopes and the omitted one. *)
Lemma scopeMatches_typed (g r : option PermissionScope) :
  scopeMatches (scope_str <$> g) (scope_str <$> r) =
  match g, r with
  | None, None => true
  | Some Global, _ => true
  | Some Project, Some (Project | Own) => true
  | Some Own, Some Own => true
  | _, _ => false
  end.
Proof. destruct g as [[]|], r as [[]|]; reflexivity. Qed.

(** Once resource and action agree, the scopes decide. *)
Lemma permissionsMatch_scopes (g r : Permission) :
  resource g = resource r -> action g = action r ->
  permissionsMatch g r = scopeMatches (scope_str <$> scope g) (scope_str <$> scope r).
Proof.
  intros Hres Hact. unfold permissionsMatch.
  rewrite Hres, String.eqb_refl, Hact. simpl.
  rewrite bool_decide_eq_true_2 by reflexivity. reflexivity.
Qed.

Lemma permissionsMatch_true (g r : Permission) :
  permissionsMatch g r = true <->
  resource g = resource r /\ action g = action r /\
  scopeMatches (scope_str <$> scope g) (scope_str <$> scope r) = true.
Proof.
  unfold permissionsMatch. split.
  - destruct (String.eqb_spec (resource g) (resource r)) as [Hres|]; simpl; [|discriminate].
    destruct (decide (action g = action r)) as [Hact|Hact].
    + rewrite bool_decide_eq_true_2 by assumption. simpl. auto.
    + rewrite bool_decide_eq_false_2 by assumption. simpl. discriminate.
  - intros (Hres & Hact & Hsc).
    rewrite Hres, String.eqb_refl, Hact. simpl.
    rewrite bool_decide_eq_true_2 by reflexivity. exact Hsc.
Qed.

(** [hasPermission] is the inactive-user guard followed by a search of
    the permission list. *)
Lemma hasPermission_true (u : User) (p : Permission) :
  hasPermission u p = true <->
  isActive u = true /\ exists g, g ∈ permissions u /\ permissionsMatch g p = true.
Proof.
  unfold hasPermission. destruct (isActive u); simpl.
  - rewrite existsb_exists. split.
    + intros (g & Hin & Hm). split; [reflexivity|].
      exists g. split; [by apply list_elem_of_In | exact Hm].
    + intros (_ & g & Hin & Hm). exists g. split; [by apply list_elem_of_In | exact Hm].
  - split; [discriminate | intros [? _]; discriminate].
Qed.

(** A filter whose predicate ignores the element keeps all or nothing. *)
Lemma filter_const {T : Type} (b : bool) (items : list T) :
  List.filter (fun _ => b) items = if b then items else [].
Proof.
  induction items as [|x items IH]; simpl.
  - by destruct b.
  - rewrite IH. by destruct b.
Qed.

(** Only the administrator permission itself matches the administrator
    requirement. *)
Lemma permissionsMatch_admin (g : Permission) :
  permissionsMatch g {| resource := "*"; action := Configure; scope := Some Global |} = true
  <-> g = {| resource := "*"; action := Configure; scope := Some Global |}.
Proof.
  rewrite permissionsMatch_true. destruct g as [res act sc]; simpl. split.
  - intros (-> & -> & Hsc). destruct sc as [[]|]; try discriminate Hsc. reflexivity.
  - intros [= -> -> ->]. auto.
Qed.

(** C1. Scope matching is hierarchical and directional.  For permissions
    that agree on resource and action: a granted [global] scope satisfies
    every required scope; a granted [project] scope satisfies exactly the
    required scopes [project] and [own] (so not [global]); a granted [own]
    scope satisfies exactly the required scope [own].  An active user
    holding a [global] grant passes every requirement on the same resource
    and action, whatever its scope.  In particular an active user holding
    only the project-scope grant on docs/update passes
    the own-scope requirement, and an active user holding only the
    own-scope grant fails the project-scope requirement. *)
Theorem scope_matching_hierarchical :
  (forall g r : Permission,
     resource g = resource r -> action g = action r ->
     (scope g = Some Global -> permissionsMatch g r = true) /\
     (scope g = Some Project ->
        (permissionsMatch g r = true <-> scope r = Some Project \/ scope r = Some Own)) /\
     (scope g = Some Own ->
        (permissionsMatch g r = true <-> scope r = Some Own))) /\
  (forall (u : User) (g r : Permission),
     isActive u = true -> g ∈ permissions u -> scope g = Some Global ->
     resource g = resource r -> action g = action r ->
     hasPermission u r = true) /\
  (forall u : User,
     isActive u = true ->
     permissions u = [{| resource := "docs"; action := Update; scope := Some Project |}] ->
     hasPermission u {| resource := "docs"; action := Update; scope := Some Own |} = true) /\
  (forall u : User,
     isActive u = true ->
     permissions u = [{| resource := "docs"; action := Update; scope := Some Own |}] ->
     hasPermission u {| resource := "docs"; action := Update; scope := Some Project |} = false).
Proof.
  split; [|split; [|split]].
  - intros g r Hres Hact.
    rewrite (permissionsMatch_scopes g r Hres Hact), scopeMatches_typed.
    split; [|split]; intros Hg; rewrite Hg.
    + reflexivity.
    + destruct (scope r) as [[]|]; split; intros H; auto;
        try discriminate H; destruct H as [H|H]; discriminate H.
    + destruct (scope r) as [[]|]; split; intros H; auto; discriminate H.
  - intros u g r Hact Hin Hglobal Hres Hact'. apply hasPermission_true.
    split; [exact Hact|]. exists g. split; [exact Hin|].
    rewrite (permissionsMatch_scopes g r Hres Hact'), scopeMatches_typed, Hglobal.
    reflexivity.
  - intros u Hact Hperms. unfold hasPermission. rewrite Hact, Hperms. reflexivity.
  - intros u Hact Hperms. unfold hasPermission. rewrite Hact, Hperms. reflexivity.
Qed.

Lemma scope_matching_hierarchical_witness :
  permissionsMatch (Fixtures.docsUpdate (Some Global)) (Fixtures.docsUpdate (Some Own)) = true /\
  (permissionsMatch (Fixtures.docsUpdate (Some Project)) (Fixtures.docsUpdate (Some Global)) = true
   <-> Some Global = Some Project \/ Some Global = Some Own) /\
  hasPermission (Fixtures.userWith true [Fixtures.docsUpdate (Some Project)])
                (Fixtures.docsUpdate (Some Own)) = true /\
  hasPermission (Fixtures.userWith true [Fixtures.docsUpdate (Some Own)])
                (Fixtures.docsUpdate (Some Project)) = false.
Proof.
  destruct scope_matching_hierarchical as (Hpair & _ & Hproject & Hown).
  split; [|split; [|split]].
  - exact (proj1 (Hpair (Fixtures.docsUpdate (Some Global))
                    (Fixtures.docsUpdate (Some Own)) eq_refl eq_refl) eq_refl).
  - exact (proj1 (proj2 (Hpair (Fixtures.docsUpdate (Some Project))
                    (Fixtures.docsUpdate (Some Global)) eq_refl eq_refl)) eq_refl).
  - apply Hproject; reflexivity.
  - apply Hown; reflexivity.
Defined.

(** C2, as stated, fails: a granted [global] scope satisfies a requirement
    that omits its scope, because the [global] test comes before the exact
    comparison. *)
Lemma global_grant_meets_scopeless_requirement :
  resource (Fixtures.docsUpdate (Some Global)) = resource (Fixtures.docsUpdate None) /\
  action (Fixtures.docsUpdate (Some Global)) = action (Fixtures.docsUpdate None) /\
  scope (Fixtures.docsUpdate (Some Global)) = Some Global /\
  scope (Fixtures.docsUpdate None) = None /\
  permissionsMatch (Fixtures.docsUpdate (Some Global)) (Fixtures.docsUpdate None) = true /\
  hasPermission (Fixtures.userWith true [Fixtures.docsUpdate (Some Global)])
                (Fixtures.docsUpdate None) = true.
Proof. repeat split. Qed.

(** C2 (amended). For permissions that agree on resource and action: when
    both omit the scope they match; a grant that omits its scope satisfies
    no scoped requirement; and a scoped grant satisfies a requirement that
    omits its scope exactly when the granted scope is [global] (a granted
    [project] or [own] scope does not). *)
Theorem omitted_scope_matching (g r : Permission) :
  resource g = resource r -> action g = action r ->
  (scope g = None -> scope r = None -> permissionsMatch g r = true) /\
  (scope g = None -> is_Some (scope r) -> permissionsMatch g r = false) /\
  (forall s, scope g = Some s -> scope r = None ->
     permissionsMatch g r = bool_decide (s = Global)).
Proof.
  intros Hres Hact.
  rewrite (permissionsMatch_scopes g r Hres Hact), scopeMatches_typed.
  split; [|split].
  - by intros -> ->.
  - intros -> [s ->]. reflexivity.
  - intros s -> ->. by destruct s.
Qed.

Lemma omitted_scope_matching_witness :
  permissionsMatch (Fixtures.docsUpdate None) (Fixtures.docsUpdate None) = true /\
  permissionsMatch (Fixtures.docsUpdate None) (Fixtures.docsUpdate (Some Own)) = false /\
  permissionsMatch (Fixtures.docsUpdate (Some Project)) (Fixtures.docsUpdate None) = false /\
  permissionsMatch (Fixtures.docsUpdate (Some Global)) (Fixtures.docsUpdate None) = true.
Proof.
  split; [|split; [|split]].
  - exact (proj1 (omitted_scope_matching (Fixtures.docsUpdate None)
                    (Fixtures.docsUpdate None) eq_refl eq_refl) eq_refl eq_refl).
  - exact (proj1 (proj2 (omitted_scope_matching (Fixtures.docsUpdate None)
                    (Fixtures.docsUpdate (Some Own)) eq_refl eq_refl))
             eq_refl (ex_intro _ Own eq_refl)).
  - exact (proj2 (proj2 (omitted_scope_matching (Fixtures.docsUpdate (Some Project))
                    (Fixtures.docsUpdate None) eq_refl eq_refl))
             Project eq_refl eq_refl).
  - exact (proj2 (proj2 (omitted_scope_matching (Fixtures.docsUpdate (Some Global))
                    (Fixtures.docsUpdate None) eq_refl eq_refl))
             Global eq_refl eq_refl).
Defined.

(** C3. An inactive user has no permission, whatever the permission list
    holds. *)
Theorem inactive_user_has_no_permission (user : User) (required : Permission) :
  isActive user = false -> hasPermission user required = false.
Proof.
  intros Hinactive. unfold hasPermission.
  rewrite Hinactive. reflexivity.
Qed.

Lemma inactive_user_has_no_permission_witness :
  hasPermission
    (Fixtures.userWith false [Fixtures.adminPermission; Fixtures.docsUpdate (Some Global)])
    (Fixtures.docsUpdate (Some Own)) = false.
Proof.
  apply (inactive_user_has_no_permission
           (Fixtures.userWith false [Fixtures.adminPermission; Fixtures.docsUpdate (Some Global)])).
  reflexivity.
Defined.

(** C6, as stated, fails for an inactive user: the administrator
    permission is in the list and [isGlobalAdmin] is false. *)
Lemma inactive_admin_is_not_global_admin :
  Fixtures.adminPermission ∈ permissions (Fixtures.userWith false [Fixtures.adminPermission]) /\
  Fixtures.adminPermission = {| resource := "*"; action := Configure; scope := Some Global |} /\
  isGlobalAdmin (Fixtures.userWith false [Fixtures.adminPermission]) = false.
Proof.
  split; [|split]; [|reflexivity..].
  simpl. apply list_elem_of_here.
Qed.

(** C6 (amended). [isGlobalAdmin user] is true if and only if the user is
    active and the permission list holds exactly
    [{resource: "*", action: "configure", scope: "global"}]; a user none of
    whose permissions is on the resource ["*"] (one holding docs/configure/
    global, say) is not a global administrator. *)
Theorem isGlobalAdmin_iff (user : User) :
  (isGlobalAdmin user = true <->
     isActive user = true /\
     {| resource := "*"; action := Configure; scope := Some Global |} ∈ permissions user) /\
  ((forall g, g ∈ permissions user -> resource g <> "*") -> isGlobalAdmin user = false).
Proof.
  assert (Hiff : isGlobalAdmin user = true <->
     isActive user = true /\
     {| resource := "*"; action := Configure; scope := Some Global |} ∈ permissions user).
  { unfold isGlobalAdmin. rewrite hasPermission_true. split.
    - intros (Hact & g & Hin & Hm). apply permissionsMatch_admin in Hm. by subst g.
    - intros (Hact & Hin). split; [exact Hact|].
      eexists. split; [exact Hin|]. by apply permissionsMatch_admin. }
  split; [exact Hiff|].
  intros Hother. apply not_true_is_false. intros Hadmin.
  apply Hiff in Hadmin as [_ Hin]. by apply (Hother _ Hin).
Qed.

Lemma isGlobalAdmin_iff_witness :
  isGlobalAdmin (Fixtures.userWith true [Fixtures.docsUpdate (Some Own); Fixtures.adminPermission]) = true /\
  isGlobalAdmin (Fixtures.userWith true
    [{| resource := "docs"; action := Configure; scope := Some Global |}]) = false.
Proof.
  split.
  - apply (proj1 (isGlobalAdmin_iff
             (Fixtures.userWith true [Fixtures.docsUpdate (Some Own); Fixtures.adminPermission]))).
    split; [reflexivity|]. simpl. apply list_elem_of_further, list_elem_of_here.
  - apply (proj2 (isGlobalAdmin_iff (Fixtures.userWith true
             [{| resource := "docs"; action := Configure; scope := Some Global |}]))).
    simpl. intros g Hg. apply list_elem_of_singleton in Hg. by subst g.
Defined.

(** C9. [filterByPermissions] is all-or-nothing.  The decision -- does the
    user hold the requirement at global, else project, else own scope --
    does not depend on the item, so the result is the whole input list
    when the decision is positive and the empty list otherwise.  A user
    who holds the requirement at own scope therefore receives every item;
    so does an active user whose only grant is the own-scope one. *)
Theorem filterByPermissions_all_or_nothing
    {T : Type} (user : User) (items : list T) (required : ScopelessPermission) :
  filterByPermissions user items required =
    (if hasPermission user (with_scope required Global)
        || hasPermission user (with_scope required Project)
        || hasPermission user (with_scope required Own)
     then items else []) /\
  (filterByPermissions user items required = items \/
   filterByPermissions user items required = []) /\
  (hasPermission user (with_scope required Own) = true ->
   filterByPermissions user items required = items) /\
  (isActive user = true -> permissions user = [with_scope required Own] ->
   filterByPermissions user items required = items).
Proof.
  assert (Hdecision : filterByPermissions user items required =
    (if hasPermission user (with_scope required Global)
        || hasPermission user (with_scope required Project)
        || hasPermission user (with_scope required Own)
     then items else [])).
  { unfold filterByPermissions. rewrite filter_const.
    destruct (hasPermission user (with_scope required Global)),
             (hasPermission user (with_scope required Project)); reflexivity. }
  assert (Hown : hasPermission user (with_scope required Own) = true ->
                 filterByPermissions user items required = items).
  { intros H. rewrite Hdecision, H, !orb_true_r. reflexivity. }
  split; [exact Hdecision|]. split; [|split].
  - rewrite Hdecision. destruct (_ || _); auto.
  - exact Hown.
  - intros Hact Hperms. apply Hown. apply hasPermission_true.
    split; [exact Hact|]. exists (with_scope required Own).
    split; [rewrite Hperms; apply list_elem_of_here|].
    apply permissionsMatch_true. simpl. auto.
Qed.

Lemma filterByPermissions_all_or_nothing_witness :
  filterByPermissions (Fixtures.userWith true [Fixtures.docsUpdate (Some Own)])
    ["mine"; "yours"; "theirs"] {| sl_resource := "docs"; sl_action := Update |}
  = ["mine"; "yours"; "theirs"].
Proof.
  apply (proj2 (proj2 (proj2 (filterByPermissions_all_or_nothing
           (Fixtures.userWith true [Fixtures.docsUpdate (Some Own)])
           ["mine"; "yours"; "theirs"] {| sl_resource := "docs"; sl_action := Update |}))));
    reflexivity.
Defined.

(* ===================================================================== *)
(** ** Properties of the validation and sanitization pipeline *)
(* ===================================================================== *)

Import ValidationService.

(** C8, as stated, fails: when [schema.parse] throws something other than
    a [ZodError], [validate] re-throws it; the outcome is neither a value
    nor a [SecurityError]. *)
Lemma validate_rethrows_unexpected_error :
  parse Fixtures.throwingSchema JNull = Throw (ExOther "refinement failed") /\
  validate JNull Fixtures.throwingSchema = Throw (ExOther "refinement failed") /\
  (forall v, validate JNull Fixtures.throwingSchema <> Ok v) /\
  (forall e, validate JNull Fixtures.throwingSchema <> Throw (ExSecurity e)).
Proof. repeat split; intros; discriminate. Qed.

(** C8 (amended). [validate] returns the value [schema.parse] returns;
    when [schema.parse] throws a [ZodError] it fails with a [SecurityError]
    coded [INVALID_INPUT] whose details are [{issues, received: data}],
    [issues] being the error's own list of issues (path and message per
    issue, so a missing field's path is among them when the schema reports
    it); any other error thrown by [schema.parse] is re-thrown as it is. *)
Theorem validate_outcomes (data : jsval) (schema : ZodSchema) :
  (forall v, parse schema data = Ok v -> validate data schema = Ok v) /\
  (forall issues, parse schema data = Throw (ExZod issues) ->
     validate data schema =
       Throw (ExSecurity {| message := "Input validation failed";
                            code := INVALID_INPUT;
                            details := Some (ValidationDetails issues data) |}) /\
     forall issue, issue ∈ issues ->
       exists e reported,
         validate data schema = Throw (ExSecurity e) /\ code e = INVALID_INPUT /\
         details e = Some (ValidationDetails reported data) /\ issue ∈ reported) /\
  (forall error, parse schema data = Throw error ->
     (forall issues, error <> ExZod issues) ->
     validate data schema = Throw error).
Proof.
  unfold validate. split; [|split].
  - by intros v ->.
  - intros issues ->. split; [reflexivity|].
    intros issue Hin. eexists _, issues. by repeat split.
  - intros error -> Hother. destruct error as [e|issues|msg]; try reflexivity.
    by destruct (Hother issues).
Qed.

Lemma validate_outcomes_witness :
  validate (JObj (<["content" := JStr "<p>hi</p>"]> ∅)) Fixtures.articleSchema =
    Throw (ExSecurity
      {| message := "Input validation failed"; code := INVALID_INPUT;
         details := Some (ValidationDetails
           [{| issue_code := "invalid_type"; path := [Key "title"];
               issue_message := "Required" |}]
           (JObj (<["content" := JStr "<p>hi</p>"]> ∅))) |}) /\
  validate JNull Fixtures.throwingSchema = Throw (ExOther "refinement failed") /\
  validate (JStr "x") Fixtures.nonEmptyString = Ok (JStr "x").
Proof.
  split; [|split].
  - apply (proj1 (proj2 (validate_outcomes
             (JObj (<["content" := JStr "<p>hi</p>"]> ∅)) Fixtures.articleSchema))).
    vm_compute. reflexivity.
  - apply (proj2 (proj2 (validate_outcomes JNull Fixtures.throwingSchema))).
    + reflexivity.
    + intros issues. discriminate.
  - apply (proj1 (validate_outcomes (JStr "x") Fixtures.nonEmptyString)).
    reflexivity.
Defined.

Lemma typeof_string (v : jsval) :
  String.eqb (typeof v) "string" = true <-> exists s, v = JStr s.
Proof.
  destruct v; simpl; split; try discriminate; try (intros [? [=]]); eauto.
Qed.

Lemma string_field_Some (m : gmap string jsval) (k s : string) :
  string_field m k = Some s <-> m !! k = Some (JStr s).
Proof.
  unfold string_field. destruct (m !! k) as [[]|]; split; intros [=]; by subst.
Qed.

Lemma string_field_None (m : gmap string jsval) (k : string) :
  string_field m k = None <-> forall s, m !! k <> Some (JStr s).
Proof.
  unfold string_field. destruct (m !! k) as [[]|]; split; try done.
  intros H. by destruct (H s).
Qed.

(** [containsHtmlContent] on a plain object: some field under one of the
    four names holds a string. *)
Lemma containsHtmlContent_obj (m : gmap string jsval) :
  containsHtmlContent (JObj m) = true <->
  exists k s, k ∈ htmlFields /\ m !! k = Some (JStr s).
Proof.
  unfold containsHtmlContent.
  change (negb (String.eqb (typeof (JObj m)) "object") || is_null (JObj m)) with false.
  cbv iota. rewrite existsb_exists. unfold get_field. split.
  - intros (k & Hin & Hk). destruct (m !! k) as [v|] eqn:Hv; [|discriminate].
    apply typeof_string in Hk as [s ->]. exists k, s.
    split; [by apply list_elem_of_In | done].
  - intros (k & s & Hin & Hk). exists k. split; [by apply list_elem_of_In|].
    by rewrite Hk.
Qed.

(** Anything but a plain object has none of the four fields. *)
Lemma containsHtmlContent_not_obj (v : jsval) :
  (forall m, v <> JObj m) -> containsHtmlContent v = false.
Proof. destruct v; intros Hv; try reflexivity. by destruct (Hv m). Qed.

Section Loop.

Variable domPurify_sanitize : string -> Config -> option string.
Variable clean : string -> string.

Lemma sanitizeField_string (m : gmap string jsval) (f s : string) :
  m !! f = Some (JStr s) ->
  domPurify_sanitize s config = Some (clean s) ->
  sanitizeField domPurify_sanitize m f = Ok (<[f := JStr (clean s)]> m).
Proof.
  intros Hf Hs. unfold sanitizeField, string_field, sanitizeHtml.
  rewrite Hf, Hs. reflexivity.
Qed.

Lemma sanitizeField_other (m : gmap string jsval) (f : string) :
  string_field m f = None ->
  sanitizeField domPurify_sanitize m f = Ok m.
Proof. intros Hf. unfold sanitizeField. rewrite Hf. reflexivity. Qed.

(** The loop over the field names, on any list of distinct names: each
    named string field is replaced by the sanitizer's output, every other
    lookup is as before. *)
Lemma for_of_sanitizeField (fields : list string) :
  NoDup fields ->
  forall m : gmap string jsval,
  (forall k s, k ∈ fields -> m !! k = Some (JStr s) ->
     domPurify_sanitize s config = Some (clean s)) ->
  exists m' : gmap string jsval,
    for_of fields (sanitizeField domPurify_sanitize) m = Ok m' /\
    forall k, m' !! k =
      if bool_decide (k ∈ fields)
      then match m !! k with
           | Some (JStr s) => Some (JStr (clean s))
           | other => other
           end
      else m !! k.
Proof.
  induction 1 as [|f rest Hfresh Hnodup IH]; intros m Hclean.
  - exists m. split; [reflexivity|]. intros k.
    rewrite bool_decide_eq_false_2; [done | apply not_elem_of_nil].
  - cbn [for_of].
    destruct (string_field m f) as [s|] eqn:Hf.
    + apply string_field_Some in Hf.
      rewrite (sanitizeField_string m f s Hf (Hclean f s (list_elem_of_here _ _) Hf)).
      cbn [mbind result_bind].
      destruct (IH (<[f := JStr (clean s)]> m)) as (m' & Hrun & Hlook).
      { intros k s' Hk Hks'. apply (Hclean k s'); [by apply list_elem_of_further|].
        rewrite lookup_insert_ne in Hks'; [done | by intros ->]. }
      exists m'. split; [exact Hrun|]. intros k. rewrite Hlook.
      destruct (decide (k = f)) as [->|Hne].
      * rewrite (bool_decide_eq_false_2 _ Hfresh).
        rewrite (bool_decide_eq_true_2 (f ∈ f :: rest)) by apply list_elem_of_here.
        by rewrite lookup_insert_eq, Hf.
      * rewrite lookup_insert_ne by done.
        destruct (decide (k ∈ rest)) as [Hin|Hnin].
        -- rewrite (bool_decide_eq_true_2 _ Hin).
           by rewrite (bool_decide_eq_true_2 (k ∈ f :: rest)) by by apply list_elem_of_further.
        -- rewrite (bool_decide_eq_false_2 _ Hnin).
           rewrite (bool_decide_eq_false_2 (k ∈ f :: rest)); [done|].
           by intros [?|?]%elem_of_cons.
    + rewrite (sanitizeField_other m f Hf). cbn [mbind result_bind].
      destruct (IH m) as (m' & Hrun & Hlook).
      { intros k s' Hk. apply Hclean. by apply list_elem_of_further. }
      exists m'. split; [exact Hrun|]. intros k. rewrite Hlook.
      destruct (decide (k = f)) as [->|Hne].
      * rewrite (bool_decide_eq_false_2 _ Hfresh).
        rewrite (bool_decide_eq_true_2 (f ∈ f :: rest)) by apply list_elem_of_here.
        unfold string_field in Hf. by destruct (m !! f) as [[]|].
      * destruct (decide (k ∈ rest)) as [Hin|Hnin].
        -- rewrite (bool_decide_eq_true_2 _ Hin).
           by rewrite (bool_decide_eq_true_2 (k ∈ f :: rest)) by by apply list_elem_of_further.
        -- rewrite (bool_decide_eq_false_2 _ Hnin).
           rewrite (bool_decide_eq_false_2 (k ∈ f :: rest)); [done|].
           by intros [?|?]%elem_of_cons.
Qed.

End Loop.

Lemma htmlFields_NoDup : NoDup htmlFields.
Proof. apply (bool_decide_unpack _). vm_compute. exact I. Qed.

(** The sanitizing pass on a plain object, field by field. *)
Lemma sanitizeHtmlInObject_obj
    (domPurify_sanitize : string -> Config -> option string)
    (clean : string -> string) (m : gmap string jsval) :
  (forall k s, k ∈ htmlFields -> m !! k = Some (JStr s) ->
     domPurify_sanitize s config = Some (clean s)) ->
  exists m' : gmap string jsval,
    sanitizeHtmlInObject domPurify_sanitize (JObj m) = Ok (JObj m') /\
    forall k, m' !! k = field_image clean k <$> m !! k.
Proof.
  intros Hclean.
  destruct (for_of_sanitizeField domPurify_sanitize clean htmlFields
              htmlFields_NoDup m Hclean) as (m' & Hrun & Hlook).
  exists m'. split.
  - unfold sanitizeHtmlInObject.
    change (negb (String.eqb (typeof (JObj m)) "object") || is_null (JObj m)) with false.
    cbv iota. change (own_props (JObj m)) with m. rewrite Hrun. reflexivity.
  - intros k. rewrite Hlook. unfold field_image.
    destruct (m !! k) as [[]|]; simpl; by destruct (bool_decide (k ∈ htmlFields)).
Qed.

(** C5. When validation succeeds with the value [v], and the sanitizer
    returns [clean s] on every string [s] held by one of the top-level
    fields [content], [description], [notes], [html] of [v]:
    - if [v] is an object, [validateAndSanitize] returns an object with the
      same field names in which exactly those string fields are replaced by
      their sanitized form and every other field is the validated one; a
      field holding a sub-object is returned as it is, whatever strings the
      sub-object holds under those names; and when [content] is the only
      such string field, the result is the validated object with [content]
      alone replaced;
    - any other validated value is returned unchanged. *)
Theorem validateAndSanitize_frame
    (domPurify_sanitize : string -> Config -> option string)
    (clean : string -> string) (data : jsval) (schema : ZodSchema) (v : jsval) :
  validate data schema = Ok v ->
  (forall k s, k ∈ htmlFields -> get_field v k = Some (JStr s) ->
     domPurify_sanitize s config = Some (clean s)) ->
  (forall m, v = JObj m ->
     exists m' : gmap string jsval,
       validateAndSanitize domPurify_sanitize data schema = Ok (JObj m') /\
       (forall k, m' !! k = field_image clean k <$> m !! k) /\
       (forall k, k ∉ htmlFields -> m' !! k = m !! k) /\
       (forall k s, k ∈ htmlFields -> m !! k = Some (JStr s) ->
          m' !! k = Some (JStr (clean s))) /\
       (forall k inner, m !! k = Some (JObj inner) -> m' !! k = Some (JObj inner)) /\
       (forall c, m !! "content" = Some (JStr c) ->
          (forall k, k ∈ ["description"; "notes"; "html"] -> string_field m k = None) ->
          m' = <["content" := JStr (clean c)]> m)) /\
  ((forall m, v <> JObj m) ->
     validateAndSanitize domPurify_sanitize data schema = Ok v).
Proof.
  intros Hvalid Hclean. unfold validateAndSanitize. rewrite Hvalid.
  cbn [mbind result_bind]. split.
  - intros m ->.
    assert (Hframe : exists m' : gmap string jsval,
      (if containsHtmlContent (JObj m)
       then sanitizeHtmlInObject domPurify_sanitize (JObj m)
       else Ok (JObj m)) = Ok (JObj m') /\
      forall k, m' !! k = field_image clean k <$> m !! k).
    { destruct (containsHtmlContent (JObj m)) eqn:Hhtml.
      - by apply sanitizeHtmlInObject_obj.
      - exists m. split; [reflexivity|]. intros k. unfold field_image.
        destruct (m !! k) as [[]|] eqn:Hk; simpl; try reflexivity.
        destruct (decide (k ∈ htmlFields)) as [Hin|Hnin].
        + assert (containsHtmlContent (JObj m) = true) as Habs
            by (apply containsHtmlContent_obj; eauto).
          congruence.
        + by rewrite bool_decide_eq_false_2. }
    destruct Hframe as (m' & Hrun & Hlook).
    exists m'. split; [exact Hrun|]. split; [exact Hlook|].
    split; [|split; [|split]].
    + intros k Hk. rewrite Hlook. unfold field_image.
      destruct (m !! k) as [[]|]; simpl; try reflexivity.
      by rewrite bool_decide_eq_false_2.
    + intros k s Hk Hks. rewrite Hlook, Hks. simpl.
      by rewrite bool_decide_eq_true_2.
    + intros k inner Hk. by rewrite Hlook, Hk.
    + intros c Hc Honly. apply map_eq. intros k. rewrite Hlook.
      destruct (decide (k = "content")) as [->|Hne].
      * rewrite lookup_insert_eq, Hc. reflexivity.
      * rewrite lookup_insert_ne by done. unfold field_image.
        destruct (m !! k) as [[]|] eqn:Hk; simpl; try reflexivity.
        destruct (decide (k ∈ htmlFields)) as [Hin|Hnin].
        -- assert (k ∈ ["description"; "notes"; "html"]) as Hrest.
           { unfold htmlFields in Hin. apply elem_of_cons in Hin as [?|?]; done. }
           apply Honly in Hrest. apply string_field_None with (s := s) in Hrest.
           congruence.
        -- by rewrite bool_decide_eq_false_2.
  - intros Hv. by rewrite containsHtmlContent_not_obj.
Qed.

Lemma validateAndSanitize_frame_witness :
  validateAndSanitize Fixtures.stripOnclick (JObj Fixtures.documentFields) Fixtures.articleSchema
  = Ok (JObj (<["content" := JStr "<p>hi</p>"]> Fixtures.documentFields)) /\
  (<["content" := JStr "<p>hi</p>"]> Fixtures.documentFields) !! "metadata"
  = Some (JObj (<["notes" := JStr Fixtures.onclickParagraph]> ∅)).
Proof.
  destruct (proj1 (validateAndSanitize_frame Fixtures.stripOnclick
              (fun s => if String.eqb s Fixtures.onclickParagraph then "<p>hi</p>" else s)
              (JObj Fixtures.documentFields) Fixtures.articleSchema
              (JObj Fixtures.documentFields) eq_refl (fun k s _ _ => eq_refl))
            Fixtures.documentFields eq_refl)
    as (m' & Hrun & _ & _ & _ & _ & Honly).
  rewrite Hrun.
  rewrite (Honly Fixtures.onclickParagraph eq_refl).
  - split; reflexivity.
  - intros k Hk. apply string_field_None. intros s.
    repeat (apply elem_of_cons in Hk as [->|Hk]; [discriminate|]).
    by apply not_elem_of_nil in Hk.
Defined.

(* ===================================================================== *)
(** ** Properties of the authorization gate *)
(* ===================================================================== *)

Import SecureComponent.

(** The permission step passes on an empty list or on a successful
    [hasAnyPermission]. *)
Lemma hasPermissions_true (user : User) (requiredPermissions : list Permission) :
  hasPermissions user requiredPermissions = true <->
  requiredPermissions = [] \/ hasAnyPermission user requiredPermissions = true.
Proof.
  unfold hasPermissions. destruct requiredPermissions as [|p rest]; simpl.
  - split; auto.
  - split; [auto | by intros [?|?]].
Qed.

(** The falsy values, one by one. *)
Lemma truthy_false (v : jsval) :
  truthy v = false <->
  v ∈ [JUndefined; JNull; JBool false; JNum 0; JNaN; JStr ""].
Proof.
  split.
  - destruct v as [| |b|n| |s| | |]; simpl; intros H; try discriminate H.
    + apply list_elem_of_here.
    + apply list_elem_of_further, list_elem_of_here.
    + subst b.
      do 2 apply list_elem_of_further. apply list_elem_of_here.
    + apply negb_false_iff, Z.eqb_eq in H. subst n.
      do 3 apply list_elem_of_further. apply list_elem_of_here.
    + do 4 apply list_elem_of_further. apply list_elem_of_here.
    + apply negb_false_iff, String.eqb_eq in H. subst s.
      do 5 apply list_elem_of_further. apply list_elem_of_here.
  - intros H. repeat (apply elem_of_cons in H as [->|H]; [reflexivity|]).
    by apply not_elem_of_nil in H.
Qed.

(** The hook runs the same effect as the component. *)
Lemma useSecureData_same domPurify_sanitize user requiredPermissions data validationSchema :
  useSecureData_validateAndAuthorize domPurify_sanitize user requiredPermissions
    data validationSchema
  = validateAndAuthorize domPurify_sanitize user requiredPermissions data validationSchema.
Proof. reflexivity. Qed.

Section GateRuns.

Variable domPurify_sanitize : string -> Config -> option string.
Variable user : User.
Variable requiredPermissions : list Permission.
Variable data : jsval.
Variable validationSchema : option ZodSchema.
Variable w : world.

Let gate := validateAndAuthorize domPurify_sanitize user requiredPermissions
              data validationSchema.

(** A failed permission check: [Denied], and the pipeline is not called. *)
Lemma gate_permission_denied :
  hasPermissions user requiredPermissions = false ->
  gate w =
    ({| state := Denied {| message := "Insufficient permissions";
                           code := PERMISSION_DENIED;
                           details := Some (GateDetails requiredPermissions (id user)) |};
        calls := calls w |}, Ok tt).
Proof.
  intros Hperm. unfold gate, validateAndAuthorize, tryCatch, andThen, setState, throw.
  rewrite Hperm. reflexivity.
Qed.

(** A passed check with nothing to validate: [Authorized], with
    [validatedData] left [undefined], and the pipeline is not called. *)
Lemma gate_nothing_to_validate :
  hasPermissions user requiredPermissions = true ->
  (if truthy data then validationSchema else None) = None ->
  gate w = ({| state := Authorized JUndefined; calls := calls w |}, Ok tt).
Proof.
  intros Hperm Hskip.
  unfold gate, validateAndAuthorize, tryCatch, andThen, setState, pure.
  rewrite Hperm, Hskip. reflexivity.
Qed.

(** A passed check with truthy data and a schema: the pipeline is called
    once, and its outcome decides. *)
Lemma gate_validates (schema : ZodSchema) :
  hasPermissions user requiredPermissions = true ->
  truthy data = true -> validationSchema = Some schema ->
  gate w =
    ({| state :=
          match ValidationService.validateAndSanitize domPurify_sanitize data schema with
          | Ok validated => Authorized validated
          | Throw (ExSecurity e) => Denied e
          | Throw _ => Denied {| message := "Unknown security error";
                                 code := INVALID_INPUT; details := None |}
          end;
        calls := (calls w ++ [data])%list |}, Ok tt).
Proof.
  intros Hperm Htruthy Hschema.
  unfold gate, validateAndAuthorize, tryCatch, andThen, setState, pure,
    SecureComponent.validateAndSanitize.
  rewrite Hperm, Htruthy, Hschema. simpl.
  destruct (ValidationService.validateAndSanitize domPurify_sanitize data schema)
    as [validated|[e|issues|msg]]; reflexivity.
Qed.

End GateRuns.

(** C4, as stated, fails at two inputs.  With an empty permission list
    and the empty string supplied together with a schema that rejects it,
    the pipeline would fail, yet the gate ends [Authorized] with
    [undefined] data, the pipeline never being called.  And when the
    pipeline throws an error that is not a [SecurityError], the gate ends
    [Denied] with a fresh "Unknown security error", not with the
    pipeline's error. *)
Lemma gate_does_not_always_carry_pipeline_failure :
  (hasPermissions (Fixtures.userWith true []) [] = true /\
   (exists e, ValidationService.validateAndSanitize Fixtures.stripOnclick
                (JStr "") Fixtures.nonEmptyString = Throw (ExSecurity e)) /\
   run (validateAndAuthorize Fixtures.stripOnclick (Fixtures.userWith true []) []
          (JStr "") (Some Fixtures.nonEmptyString)) Fixtures.initialWorld
   = {| state := Authorized JUndefined; calls := [] |}) /\
  (ValidationService.validateAndSanitize Fixtures.stripOnclick
     (JNum 1) Fixtures.throwingSchema = Throw (ExOther "refinement failed") /\
   run (validateAndAuthorize Fixtures.stripOnclick (Fixtures.userWith true []) []
          (JNum 1) (Some Fixtures.throwingSchema)) Fixtures.initialWorld
   = {| state := Denied {| message := "Unknown security error";
                           code := INVALID_INPUT; details := None |};
        calls := [JNum 1] |}).
Proof.
  split; [split; [|split]|split]; try reflexivity.
  eexists. reflexivity.
Qed.

(** C4 (amended). The gate sequences the permission check and the
    pipeline.  An empty permission list passes the permission step.  A
    non-empty list on which [hasAnyPermission] fails ends [Denied] with the
    [PERMISSION_DENIED] error, and the pipeline is not called.  When the
    step passes and truthy data and a schema were supplied, the pipeline is
    called once on the data: a value it returns ends [Authorized] carrying
    that value; a [SecurityError] it throws ends [Denied] carrying that
    error; anything else it throws ends [Denied] with
    "Unknown security error" coded [INVALID_INPUT].  When the step passes
    and no data or no schema was supplied, the gate ends [Authorized] with
    [undefined] validated data and the pipeline is not called.  The hook
    [useSecureData] runs the same effect. *)
Theorem gate_sequencing
    (domPurify_sanitize : string -> Config -> option string)
    (user : User) (requiredPermissions : list Permission)
    (data : jsval) (validationSchema : option ZodSchema) (w : world) :
  (requiredPermissions = [] -> hasPermissions user requiredPermissions = true) /\
  (requiredPermissions <> [] ->
   hasAnyPermission user requiredPermissions = false ->
   run (validateAndAuthorize domPurify_sanitize user requiredPermissions
          data validationSchema) w
   = {| state := Denied {| message := "Insufficient permissions";
                           code := PERMISSION_DENIED;
                           details := Some (GateDetails requiredPermissions (id user)) |};
        calls := calls w |}) /\
  (hasPermissions user requiredPermissions = true ->
   forall schema, truthy data = true -> validationSchema = Some schema ->
     calls (run (validateAndAuthorize domPurify_sanitize user requiredPermissions
                   data validationSchema) w) = (calls w ++ [data])%list /\
     (forall validated,
        ValidationService.validateAndSanitize domPurify_sanitize data schema = Ok validated ->
        state (run (validateAndAuthorize domPurify_sanitize user requiredPermissions
                      data validationSchema) w) = Authorized validated) /\
     (forall e,
        ValidationService.validateAndSanitize domPurify_sanitize data schema
          = Throw (ExSecurity e) ->
        state (run (validateAndAuthorize domPurify_sanitize user requiredPermissions
                      data validationSchema) w) = Denied e) /\
     (forall thrown,
        ValidationService.validateAndSanitize domPurify_sanitize data schema
          = Throw thrown ->
        (forall e, thrown <> ExSecurity e) ->
        state (run (validateAndAuthorize domPurify_sanitize user requiredPermissions
                      data validationSchema) w)
        = Denied {| message := "Unknown security error"; code := INVALID_INPUT;
                    details := None |})) /\
  (hasPermissions user requiredPermissions = true ->
   data = JUndefined \/ validationSchema = None ->
   run (validateAndAuthorize domPurify_sanitize user requiredPermissions
          data validationSchema) w
   = {| state := Authorized JUndefined; calls := calls w |}) /\
  useSecureData_validateAndAuthorize domPurify_sanitize user requiredPermissions
    data validationSchema
  = validateAndAuthorize domPurify_sanitize user requiredPermissions data validationSchema.
Proof.
  split; [|split; [|split; [|split]]].
  - intros ->. reflexivity.
  - intros Hne Hany. unfold run. rewrite gate_permission_denied; [reflexivity|].
    apply not_true_is_false. intros [?|?]%hasPermissions_true; congruence.
  - intros Hperm schema Htruthy Hschema. unfold run.
    rewrite (gate_validates _ _ _ _ _ _ schema Hperm Htruthy Hschema). simpl.
    split; [reflexivity|]. split; [|split].
    + by intros validated ->.
    + by intros e ->.
    + intros thrown -> Hother. destruct thrown as [e| |]; try reflexivity.
      by destruct (Hother e).
  - intros Hperm Hnone. unfold run. rewrite gate_nothing_to_validate; [reflexivity|done|].
    destruct Hnone as [->| ->]; [reflexivity | by destruct (truthy data)].
  - reflexivity.
Qed.

Lemma gate_sequencing_witness :
  run (validateAndAuthorize Fixtures.stripOnclick
         (Fixtures.userWith true [Fixtures.docsUpdate (Some Own)])
         [Fixtures.docsUpdate (Some Project)]
         (JObj Fixtures.documentFields) (Some Fixtures.articleSchema)) Fixtures.initialWorld
  = {| state := Denied {| message := "Insufficient permissions";
                          code := PERMISSION_DENIED;
                          details := Some (GateDetails [Fixtures.docsUpdate (Some Project)] "u-1") |};
       calls := [] |} /\
  state (run (validateAndAuthorize Fixtures.stripOnclick
                (Fixtures.userWith true [Fixtures.docsUpdate (Some Project)])
                [Fixtures.docsUpdate (Some Own)]
                (JObj Fixtures.documentFields) (Some Fixtures.articleSchema))
           Fixtures.initialWorld)
  = Authorized (JObj (<["content" := JStr "<p>hi</p>"]> Fixtures.documentFields)) /\
  run (validateAndAuthorize Fixtures.stripOnclick (Fixtures.userWith true []) []
         JUndefined None) Fixtures.initialWorld
  = {| state := Authorized JUndefined; calls := [] |}.
Proof.
  split; [|split].
  - apply (proj1 (proj2 (gate_sequencing Fixtures.stripOnclick
             (Fixtures.userWith true [Fixtures.docsUpdate (Some Own)])
             [Fixtures.docsUpdate (Some Project)]
             (JObj Fixtures.documentFields) (Some Fixtures.articleSchema)
             Fixtures.initialWorld))).
    + discriminate.
    + reflexivity.
  - apply (proj1 (proj2 (proj1 (proj2 (proj2 (gate_sequencing Fixtures.stripOnclick
             (Fixtures.userWith true [Fixtures.docsUpdate (Some Project)])
             [Fixtures.docsUpdate (Some Own)]
             (JObj Fixtures.documentFields) (Some Fixtures.articleSchema)
             Fixtures.initialWorld))) eq_refl Fixtures.articleSchema eq_refl eq_refl))).
    vm_compute. reflexivity.
  - apply (proj1 (proj2 (proj2 (proj2 (gate_sequencing Fixtures.stripOnclick
             (Fixtures.userWith true []) [] JUndefined None Fixtures.initialWorld))))).
    + reflexivity.
    + by left.
Defined.

(** C10. The gate validates only truthy data.  The falsy values are
    [undefined], [null], [false], [0], [NaN] and the empty string; for any
    of them, whatever schema comes with it (one that rejects the value
    included), the pipeline is not called, and when the permission step
    passes the gate ends [Authorized] with [undefined] validated data.
    The hook [useSecureData] behaves the same. *)
Theorem falsy_data_is_not_validated
    (domPurify_sanitize : string -> Config -> option string)
    (user : User) (requiredPermissions : list Permission)
    (data : jsval) (validationSchema : option ZodSchema) (w : world) :
  data ∈ [JUndefined; JNull; JBool false; JNum 0; JNaN; JStr ""] ->
  truthy data = false /\
  calls (run (validateAndAuthorize domPurify_sanitize user requiredPermissions
                data validationSchema) w) = calls w /\
  (requiredPermissions = [] \/ hasAnyPermission user requiredPermissions = true ->
   run (validateAndAuthorize domPurify_sanitize user requiredPermissions
          data validationSchema) w
   = {| state := Authorized JUndefined; calls := calls w |}) /\
  run (useSecureData_validateAndAuthorize domPurify_sanitize user requiredPermissions
         data validationSchema) w
  = run (validateAndAuthorize domPurify_sanitize user requiredPermissions
           data validationSchema) w.
Proof.
  intros Hfalsy%truthy_false.
  assert (Hskip : (if truthy data then validationSchema else None) = None)
    by by rewrite Hfalsy.
  split; [exact Hfalsy|]. split; [|split].
  - unfold run. destruct (hasPermissions user requiredPermissions) eqn:Hperm.
    + by rewrite gate_nothing_to_validate.
    + by rewrite gate_permission_denied.
  - intros Hperm%hasPermissions_true. unfold run.
    by rewrite gate_nothing_to_validate.
  - reflexivity.
Qed.

Lemma falsy_data_is_not_validated_witness :
  parse Fixtures.nonEmptyString (JStr "") =
    Throw (ExZod [{| issue_code := "too_small"; path := [];
                     issue_message := "String must contain at least 1 character(s)" |}]) /\
  run (validateAndAuthorize Fixtures.stripOnclick
         (Fixtures.userWith true [Fixtures.docsUpdate (Some Global)])
         [Fixtures.docsUpdate (Some Own)]
         (JStr "") (Some Fixtures.nonEmptyString)) Fixtures.initialWorld
  = {| state := Authorized JUndefined; calls := [] |}.
Proof.
  split; [reflexivity|].
  apply (proj1 (proj2 (proj2 (falsy_data_is_not_validated Fixtures.stripOnclick
           (Fixtures.userWith true [Fixtures.docsUpdate (Some Global)])
           [Fixtures.docsUpdate (Some Own)]
           (JStr "") (Some Fixtures.nonEmptyString) Fixtures.initialWorld
           ltac:(do 5 apply list_elem_of_further; apply list_elem_of_here))))).
  right. reflexivity.
Defined.

(* ===================================================================== *)
(** ** Further properties of the permission engine *)
(* ===================================================================== *)

(** A grant matches a requirement only on its own resource and action. *)
Lemma hasPermission_grant (u : User) (p : Permission) :
  hasPermission u p = true ->
  exists g, g ∈ permissions u /\ resource g = resource p /\ action g = action p /\
            scopeMatches (scope_str <$> scope g) (scope_str <$> scope p) = true.
Proof.
  intros (_ & g & Hin & Hm)%hasPermission_true.
  apply permissionsMatch_true in Hm. eauto.
Qed.

Lemma hasPermission_intro (u : User) (g p : Permission) :
  isActive u = true -> g ∈ permissions u ->
  resource g = resource p -> action g = action p ->
  scopeMatches (scope_str <$> scope g) (scope_str <$> scope p) = true ->
  hasPermission u p = true.
Proof.
  intros Hact Hin Hres Hac Hsc. apply hasPermission_true.
  split; [exact Hact|]. exists g. split; [exact Hin|].
  by apply permissionsMatch_true.
Qed.

(** X1. Granting more never takes a permission away: if every grant of
    [u] is also a grant of [u'], and [u'] is active whenever [u] is, then
    every permission [u] has, [u'] has too.  In particular the order of
    the grants and repeated grants do not matter. *)
Theorem hasPermission_monotone (u u' : User) (p : Permission) :
  (isActive u = true -> isActive u' = true) ->
  (forall g, g ∈ permissions u -> g ∈ permissions u') ->
  hasPermission u p = true -> hasPermission u' p = true.
Proof.
  intros Hactive Hsub (Hact & g & Hin & Hm)%hasPermission_true.
  apply hasPermission_true. split; [by apply Hactive|].
  exists g. split; [by apply Hsub | exact Hm].
Qed.

Lemma hasPermission_monotone_witness :
  hasPermission
    (Fixtures.userWith true [MoreFixtures.docsRead None; Fixtures.docsUpdate (Some Project);
                             Fixtures.docsUpdate (Some Project)])
    (Fixtures.docsUpdate (Some Own)) = true.
Proof.
  apply (hasPermission_monotone
           (Fixtures.userWith true [Fixtures.docsUpdate (Some Project)])).
  - reflexivity.
  - simpl. intros g ->%list_elem_of_singleton.
    apply list_elem_of_further, list_elem_of_here.
  - reflexivity.
Defined.

(** X2. A requirement at a wider scope implies the same requirement at
    every narrower scope: a user who passes it at [global] passes it at
    [project], and one who passes it at [project] passes it at [own].  The
    three checks of [filterByPermissions] therefore collapse to the last
    one: the result is the whole list exactly when the own-scope
    requirement is met. *)
Theorem required_scope_weakening
    {T : Type} (user : User) (required : ScopelessPermission) (items : list T) :
  (hasPermission user (with_scope required Global) = true ->
   hasPermission user (with_scope required Project) = true) /\
  (hasPermission user (with_scope required Project) = true ->
   hasPermission user (with_scope required Own) = true) /\
  filterByPermissions user items required =
    (if hasPermission user (with_scope required Own) then items else []).
Proof.
  assert (Hgp : hasPermission user (with_scope required Global) = true ->
                hasPermission user (with_scope required Project) = true).
  { intros H. pose proof H as (Hact & _)%hasPermission_true.
    apply hasPermission_grant in H as (g & Hin & Hres & Hac & Hsc).
    apply (hasPermission_intro user g); try done.
    rewrite scopeMatches_typed in Hsc |- *. simpl in *.
    by destruct (scope g) as [[]|]. }
  assert (Hpo : hasPermission user (with_scope required Project) = true ->
                hasPermission user (with_scope required Own) = true).
  { intros H. pose proof H as (Hact & _)%hasPermission_true.
    apply hasPermission_grant in H as (g & Hin & Hres & Hac & Hsc).
    apply (hasPermission_intro user g); try done.
    rewrite scopeMatches_typed in Hsc |- *. simpl in *.
    by destruct (scope g) as [[]|]. }
  split; [exact Hgp|]. split; [exact Hpo|].
  unfold filterByPermissions. rewrite filter_const.
  destruct (hasPermission user (with_scope required Global)) eqn:Hg.
  - by rewrite (Hpo (Hgp eq_refl)).
  - destruct (hasPermission user (with_scope required Project)) eqn:Hp.
    + by rewrite (Hpo eq_refl).
    + reflexivity.
Qed.

Lemma required_scope_weakening_witness :
  hasPermission (Fixtures.userWith true [Fixtures.docsUpdate (Some Global)])
    (Fixtures.docsUpdate (Some Project)) = true.
Proof.
  apply (proj1 (required_scope_weakening
           (Fixtures.userWith true [Fixtures.docsUpdate (Some Global)])
           {| sl_resource := "docs"; sl_action := Update |} (@nil nat))).
  reflexivity.
Defined.

(** X3. Grants that omit their scope count for nothing where a scope is
    required: a user all of whose grants omit the scope has no permission
    with a scope, and [filterByPermissions] returns the empty list for
    that user, whatever the items and the requirement. *)
Theorem scopeless_grants_meet_no_scoped_requirement
    {T : Type} (user : User) (items : list T) :
  (forall g, g ∈ permissions user -> scope g = None) ->
  (forall p, is_Some (scope p) -> hasPermission user p = false) /\
  (forall required, filterByPermissions user items required = []).
Proof.
  intros Hnone.
  assert (Hscoped : forall p, is_Some (scope p) -> hasPermission user p = false).
  { intros p [s Hs]. apply not_true_is_false. intros H.
    apply hasPermission_grant in H as (g & Hin & _ & _ & Hsc).
    rewrite scopeMatches_typed, (Hnone g Hin), Hs in Hsc. discriminate Hsc. }
  split; [exact Hscoped|].
  intros required. unfold filterByPermissions. rewrite filter_const.
  rewrite !Hscoped by (by eexists). reflexivity.
Qed.

Lemma scopeless_grants_meet_no_scoped_requirement_witness :
  filterByPermissions (Fixtures.userWith true [Fixtures.docsUpdate None])
    ["mine"; "yours"] {| sl_resource := "docs"; sl_action := Update |} = [].
Proof.
  apply (proj2 (scopeless_grants_meet_no_scoped_requirement
           (Fixtures.userWith true [Fixtures.docsUpdate None]) ["mine"; "yours"]
           (fun g Hg => match list_elem_of_singleton g _ with
                        | conj H _ => f_equal scope (H Hg)
                        end))).
Defined.

(** X4. There is no wildcard and no hierarchy among actions: a user has a
    permission only if some grant names the very same resource and the
    very same action.  So a grant on the resource ["*"], the global
    administrator's included, gives no permission on any other resource. *)
Theorem no_wildcard_expansion (user : User) (p : Permission) :
  (forall g, g ∈ permissions user ->
     resource g <> resource p \/ action g <> action p) ->
  hasPermission user p = false.
Proof.
  intros Hnone. apply not_true_is_false. intros H.
  apply hasPermission_grant in H as (g & Hin & Hres & Hac & _).
  destruct (Hnone g Hin); contradiction.
Qed.

Lemma no_wildcard_expansion_witness :
  isGlobalAdmin (Fixtures.userWith true [Fixtures.adminPermission]) = true /\
  hasPermission (Fixtures.userWith true [Fixtures.adminPermission])
    {| resource := "docs"; action := Configure; scope := Some Own |} = false.
Proof.
  split; [reflexivity|].
  apply (no_wildcard_expansion (Fixtures.userWith true [Fixtures.adminPermission])).
  simpl. intros g ->%list_elem_of_singleton. by left.
Defined.

Lemma filter_sublist {A : Type} (f : A -> bool) (l : list A) :
  List.filter f l `sublist_of` l.
Proof.
  induction l as [|x l IH]; simpl; [constructor|].
  destruct (f x); by constructor.
Qed.

Lemma filter_idem {A : Type} (f : A -> bool) (l : list A) :
  List.filter f (List.filter f l) = List.filter f l.
Proof.
  induction l as [|x l IH]; simpl; [reflexivity|].
  destruct (f x) eqn:Hx; simpl; [|exact IH]. by rewrite Hx, IH.
Qed.

(** X5. [getPermissionsForResource] returns, in their original order,
    exactly the grants whose resource is the given string -- a grant on
    ["*"] is not among those of another resource.  It does not look at
    [isActive]: for an inactive user the grants are still listed, although
    [hasPermission] is false for every one of them.  Asking again on the
    result changes nothing. *)
Theorem getPermissionsForResource_exact (user : User) (res : string) :
  (forall p, p ∈ getPermissionsForResource user res <->
             p ∈ permissions user /\ resource p = res) /\
  getPermissionsForResource user res `sublist_of` permissions user /\
  (forall u', permissions u' = getPermissionsForResource user res ->
     getPermissionsForResource u' res = getPermissionsForResource user res) /\
  (isActive user = false ->
     forall p, p ∈ getPermissionsForResource user res -> hasPermission user p = false).
Proof.
  assert (Hmem : forall p, p ∈ getPermissionsForResource user res <->
                           p ∈ permissions user /\ resource p = res).
  { intros p. unfold getPermissionsForResource.
    rewrite !list_elem_of_In, filter_In, String.eqb_eq. reflexivity. }
  split; [exact Hmem|]. split; [apply filter_sublist|]. split.
  - intros u' Hu'. unfold getPermissionsForResource at 1. rewrite Hu'.
    unfold getPermissionsForResource. apply filter_idem.
  - intros Hinactive p _. unfold hasPermission. by rewrite Hinactive.
Qed.

Lemma getPermissionsForResource_exact_witness :
  getPermissionsForResource
    (Fixtures.userWith false [Fixtures.adminPermission; Fixtures.docsUpdate (Some Own);
                              MoreFixtures.mapsUpdate None; MoreFixtures.docsRead None])
    "docs"
  = [Fixtures.docsUpdate (Some Own); MoreFixtures.docsRead None] /\
  hasPermission
    (Fixtures.userWith false [Fixtures.adminPermission; Fixtures.docsUpdate (Some Own);
                              MoreFixtures.mapsUpdate None; MoreFixtures.docsRead None])
    (Fixtures.docsUpdate (Some Own)) = false.
Proof.
  split; [reflexivity|].
  apply (proj2 (proj2 (proj2 (getPermissionsForResource_exact
           (Fixtures.userWith false [Fixtures.adminPermission; Fixtures.docsUpdate (Some Own);
                                     MoreFixtures.mapsUpdate None; MoreFixtures.docsRead None])
           "docs"))) eq_refl).
  simpl. apply list_elem_of_here.
Defined.

(** X6. [requirePermission] succeeds exactly when [hasPermission] holds.
    When it fails, what it throws is always a [SecurityError] coded
    [PERMISSION_DENIED] whose details name the user's id, the required
    permission and the optional resource it was given; an inactive user is
    always refused. *)
Theorem requirePermission_exact (user : User) (p : Permission) (res : option string) :
  (requirePermission user p res = Ok tt <-> hasPermission user p = true) /\
  (forall thrown, requirePermission user p res = Throw thrown ->
     hasPermission user p = false /\
     exists e, thrown = ExSecurity e /\ code e = PERMISSION_DENIED /\
               details e = Some (RequireDetails (id user) p res)) /\
  (isActive user = false -> exists e, requirePermission user p res = Throw (ExSecurity e)).
Proof.
  unfold requirePermission. split; [|split].
  - destruct (hasPermission user p); simpl; split; done.
  - intros thrown. destruct (hasPermission user p); simpl; [discriminate|].
    intros [= <-]. split; [reflexivity|]. eexists. by repeat split.
  - intros Hinactive. unfold hasPermission. rewrite Hinactive. simpl. by eexists.
Qed.

Lemma requirePermission_exact_witness :
  requirePermission (Fixtures.userWith true [Fixtures.docsUpdate (Some Project)])
    (Fixtures.docsUpdate (Some Own)) (Some "doc-7") = Ok tt /\
  exists e, requirePermission (Fixtures.userWith false [Fixtures.docsUpdate (Some Project)])
              (Fixtures.docsUpdate (Some Own)) (Some "doc-7") = Throw (ExSecurity e).
Proof.
  split.
  - apply (proj1 (requirePermission_exact
             (Fixtures.userWith true [Fixtures.docsUpdate (Some Project)])
             (Fixtures.docsUpdate (Some Own)) (Some "doc-7"))).
    reflexivity.
  - apply (proj2 (proj2 (requirePermission_exact
             (Fixtures.userWith false [Fixtures.docsUpdate (Some Project)])
             (Fixtures.docsUpdate (Some Own)) (Some "doc-7")))).
    reflexivity.
Defined.

(** X7. [hasAnyPermission] is true exactly when the user is active and
    some grant matches some entry of the list; on the empty list it is
    false; on a concatenation it is the disjunction of the two parts.  The
    gate's own test agrees with it on every non-empty list and differs on
    the empty one only. *)
Theorem hasAnyPermission_exact (user : User) (required more : list Permission) :
  (hasAnyPermission user required = true <->
     isActive user = true /\
     exists p g, p ∈ required /\ g ∈ permissions user /\ permissionsMatch g p = true) /\
  hasAnyPermission user [] = false /\
  hasAnyPermission user (required ++ more) =
    hasAnyPermission user required || hasAnyPermission user more /\
  (required <> [] ->
     SecureComponent.hasPermissions user required = hasAnyPermission user required) /\
  SecureComponent.hasPermissions user [] = true.
Proof.
  split; [|split; [|split; [|split]]].
  - unfold hasAnyPermission. rewrite existsb_exists. split.
    + intros (p & Hin & (Hact & g & Hg & Hm)%hasPermission_true).
      split; [exact Hact|]. exists p, g. by rewrite list_elem_of_In.
    + intros (Hact & p & g & Hp & Hg & Hm). exists p.
      split; [by apply list_elem_of_In|]. apply hasPermission_true. eauto.
  - reflexivity.
  - unfold hasAnyPermission. apply existsb_app.
  - intros Hne. unfold SecureComponent.hasPermissions.
    by destruct required.
  - reflexivity.
Qed.

Lemma hasAnyPermission_exact_witness :
  SecureComponent.hasPermissions (Fixtures.userWith false []) [Fixtures.docsUpdate None]
  = hasAnyPermission (Fixtures.userWith false []) [Fixtures.docsUpdate None].
Proof.
  apply (proj1 (proj2 (proj2 (proj2 (hasAnyPermission_exact (Fixtures.userWith false [])
           [Fixtures.docsUpdate None] []))))).
  discriminate.
Defined.

(* ===================================================================== *)
(** ** Further properties of the validation and sanitization pipeline *)
(* ===================================================================== *)

Lemma string_length_app (a b : string) :
  String.length (a ++ b) = String.length a + String.length b.
Proof. induction a as [|c a IH]; simpl; [reflexivity | by rewrite IH]. Qed.

Lemma substring_0_length (n : nat) (s : string) :
  String.length (String.substring 0 n s) = Nat.min n (String.length s).
Proof.
  revert s. induction n as [|n IH]; intros [|c s]; simpl; try reflexivity.
  by rewrite IH.
Qed.

Lemma substring_0_all (n : nat) (s : string) :
  String.length s <= n -> String.substring 0 n s = s.
Proof.
  revert s. induction n as [|n IH]; intros [|c s]; simpl; intros Hlen;
    try reflexivity; [lia|].
  rewrite IH; [reflexivity | lia].
Qed.

Lemma substring_0_prefix (n : nat) (s : string) :
  exists rest, s = String.substring 0 n s ++ rest.
Proof.
  revert s. induction n as [|n IH]; intros [|c s]; simpl.
  - by exists "".
  - by exists (String c s).
  - by exists "".
  - destruct (IH s) as [rest Hrest]. exists rest.
    change (String c s = String c (String.substring 0 n s ++ rest)).
    f_equal. exact Hrest.
Qed.

(** X8. [sanitizeHtml] returns what DOMPurify returns.  When DOMPurify
    throws, it fails with a [SecurityError] coded [INVALID_INPUT] whose
    details hold a preview of the content: its first 100 characters
    followed by three dots, so never more than 103 characters; the dots
    are appended to content shorter than 100 characters too. *)
Theorem sanitizeHtml_failure_preview
    (domPurify_sanitize : string -> Config -> option string) (content : string) :
  (forall clean, domPurify_sanitize content config = Some clean ->
     sanitizeHtml domPurify_sanitize content = Ok clean) /\
  (domPurify_sanitize content config = None ->
     exists preview,
       sanitizeHtml domPurify_sanitize content =
         Throw (ExSecurity {| message := "HTML sanitization failed";
                              code := INVALID_INPUT;
                              details := Some (SanitizeDetails preview) |}) /\
       String.length preview = Nat.min 100 (String.length content) + 3 /\
       String.length preview <= 103 /\
       (exists head rest, preview = head ++ "..." /\ content = head ++ rest) /\
       (String.length content <= 100 -> preview = content ++ "...")).
Proof.
  unfold sanitizeHtml. split.
  - by intros clean ->.
  - intros ->. exists (String.substring 0 100 content ++ "...").
    split; [reflexivity|].
    assert (Hlen : String.length (String.substring 0 100 content ++ "...")
                   = Nat.min 100 (String.length content) + 3)
      by (by rewrite string_length_app, substring_0_length).
    split; [exact Hlen|]. split; [lia|]. split.
    + destruct (substring_0_prefix 100 content) as [rest Hrest]. eauto.
    + intros Hshort. by rewrite substring_0_all.
Qed.

Lemma sanitizeHtml_failure_preview_witness :
  sanitizeHtml MoreFixtures.brokenSanitizer "<b>" =
    Throw (ExSecurity {| message := "HTML sanitization failed";
                         code := INVALID_INPUT;
                         details := Some (SanitizeDetails "<b>...") |}) /\
  sanitizeHtml Fixtures.stripOnclick Fixtures.onclickParagraph = Ok "<p>hi</p>".
Proof.
  split.
  - destruct (proj2 (sanitizeHtml_failure_preview MoreFixtures.brokenSanitizer "<b>")
                eq_refl) as (preview & Hrun & _ & _ & _ & Hshort).
    rewrite Hrun, Hshort; [reflexivity | simpl; lia].
  - apply (proj1 (sanitizeHtml_failure_preview Fixtures.stripOnclick
                    Fixtures.onclickParagraph)).
    reflexivity.
Defined.

Section LoopOutcomes.

Variable domPurify_sanitize : string -> Config -> option string.

Lemma sanitizeField_ok (m : gmap string jsval) (f s c : string) :
  m !! f = Some (JStr s) -> domPurify_sanitize s config = Some c ->
  sanitizeField domPurify_sanitize m f = Ok (<[f := JStr c]> m).
Proof.
  intros Hf Hs. unfold sanitizeField, string_field, sanitizeHtml.
  rewrite Hf, Hs. reflexivity.
Qed.

Lemma sanitizeField_throw (m : gmap string jsval) (f s : string) :
  m !! f = Some (JStr s) -> domPurify_sanitize s config = None ->
  sanitizeField domPurify_sanitize m f =
    Throw (ExSecurity {| message := "HTML sanitization failed";
                         code := INVALID_INPUT;
                         details := Some (SanitizeDetails
                                            (String.substring 0 100 s ++ "...")) |}).
Proof.
  intros Hf Hs. unfold sanitizeField, string_field, sanitizeHtml.
  rewrite Hf, Hs. reflexivity.
Qed.

(** The three ways one turn of the loop can go. *)
Lemma sanitizeField_cases (m : gmap string jsval) (f : string) :
  (string_field m f = None /\ sanitizeField domPurify_sanitize m f = Ok m) \/
  (exists s c, m !! f = Some (JStr s) /\ domPurify_sanitize s config = Some c /\
     sanitizeField domPurify_sanitize m f = Ok (<[f := JStr c]> m)) \/
  (exists s, m !! f = Some (JStr s) /\ domPurify_sanitize s config = None /\
     sanitizeField domPurify_sanitize m f =
       Throw (ExSecurity {| message := "HTML sanitization failed";
                            code := INVALID_INPUT;
                            details := Some (SanitizeDetails
                                               (String.substring 0 100 s ++ "...")) |})).
Proof.
  destruct (string_field m f) as [s|] eqn:Hf.
  - apply string_field_Some in Hf.
    destruct (domPurify_sanitize s config) as [c|] eqn:Hs.
    + right. left. exists s, c. eauto using sanitizeField_ok.
    + right. right. exists s. eauto using sanitizeField_throw.
  - left. split; [reflexivity|]. unfold sanitizeField. by rewrite Hf.
Qed.

(** The loop throws nothing but the sanitizer's failure on some string. *)
Lemma for_of_sanitizeField_throw (fields : list string) :
  forall (m : gmap string jsval) thrown,
  for_of fields (sanitizeField domPurify_sanitize) m = Throw thrown ->
  exists s, domPurify_sanitize s config = None /\
    thrown = ExSecurity {| message := "HTML sanitization failed";
                           code := INVALID_INPUT;
                           details := Some (SanitizeDetails
                                              (String.substring 0 100 s ++ "...")) |}.
Proof.
  induction fields as [|f rest IH]; intros m thrown; cbn [for_of]; [discriminate|].
  destruct (sanitizeField_cases m f)
    as [(_ & ->)|[(s & c & _ & _ & ->)|(s & _ & Hs & ->)]]; cbn [mbind result_bind].
  - apply IH.
  - apply IH.
  - intros [= <-]. by exists s.
Qed.

(** The loop fails as soon as the sanitizer throws on one named string. *)
Lemma for_of_sanitizeField_fails (fields : list string) :
  NoDup fields ->
  forall m : gmap string jsval,
  (exists k s, k ∈ fields /\ m !! k = Some (JStr s) /\
               domPurify_sanitize s config = None) ->
  exists thrown, for_of fields (sanitizeField domPurify_sanitize) m = Throw thrown.
Proof.
  induction 1 as [|f rest Hfresh Hnodup IH]; intros m (k & s & Hk & Hks & Hs).
  - by apply not_elem_of_nil in Hk.
  - cbn [for_of].
    destruct (sanitizeField_cases m f)
      as [(Hf & ->)|[(s0 & c & Hf & Hs0 & ->)|(s0 & _ & _ & ->)]];
      cbn [mbind result_bind].
    + apply IH. exists k, s.
      apply elem_of_cons in Hk as [->|Hk]; [|done].
      apply string_field_None with (s := s) in Hf. contradiction.
    + apply IH. exists k, s.
      apply elem_of_cons in Hk as [->|Hk]; [congruence|].
      split; [exact Hk|]. split; [|exact Hs].
      rewrite lookup_insert_ne; [exact Hks | by intros ->].
    + by eexists.
Qed.

(** Two sanitizers that agree on the named strings run the same loop. *)
Lemma for_of_sanitizeField_ext
    (other : string -> Config -> option string) (fields : list string) :
  NoDup fields ->
  forall m : gmap string jsval,
  (forall k s, k ∈ fields -> m !! k = Some (JStr s) ->
     domPurify_sanitize s config = other s config) ->
  for_of fields (sanitizeField domPurify_sanitize) m
  = for_of fields (sanitizeField other) m.
Proof.
  induction 1 as [|f rest Hfresh Hnodup IH]; intros m Hagree; [reflexivity|].
  cbn [for_of].
  assert (Hturn : sanitizeField domPurify_sanitize m f = sanitizeField other m f).
  { unfold sanitizeField, sanitizeHtml.
    destruct (string_field m f) as [s|] eqn:Hf; [|reflexivity].
    apply string_field_Some in Hf.
    by rewrite (Hagree f s (list_elem_of_here _ _) Hf). }
  rewrite <- Hturn.
  destruct (sanitizeField_cases m f)
    as [(_ & ->)|[(s & c & Hf & _ & ->)|(s & _ & _ & ->)]]; cbn [mbind result_bind].
  - apply IH. intros k s' Hk Hks'.
    apply (Hagree k s'); [by apply list_elem_of_further | exact Hks'].
  - apply IH. intros k s' Hk Hks'. apply (Hagree k s'); [by apply list_elem_of_further|].
    rewrite lookup_insert_ne in Hks'; [exact Hks' | by intros ->].
  - reflexivity.
Qed.

End LoopOutcomes.

Lemma sanitizeHtmlInObject_unfold
    (domPurify_sanitize : string -> Config -> option string) (m : gmap string jsval) :
  sanitizeHtmlInObject domPurify_sanitize (JObj m) =
    (result ← for_of htmlFields (sanitizeField domPurify_sanitize) m; Ok (JObj result)).
Proof. reflexivity. Qed.

(** Only a plain object can contain HTML content. *)
Lemma containsHtmlContent_true (v : jsval) :
  containsHtmlContent v = true ->
  exists m, v = JObj m /\ exists k s, k ∈ htmlFields /\ m !! k = Some (JStr s).
Proof.
  intros H. destruct v; try discriminate H.
  eexists. split; [reflexivity|]. by apply containsHtmlContent_obj.
Qed.

(** X9. [validateAndSanitize] fails as a whole.  A failure of [validate]
    is returned as it is, whatever the sanitizer would do.  When the
    validated object holds, under one of the four names, a string on which
    DOMPurify throws, the call fails with a [SecurityError] coded
    [INVALID_INPUT] ("HTML sanitization failed"): no partly sanitized
    object is returned.  And every failure is one of these two: the
    failure of [validate], or such a sanitization error. *)
Theorem validateAndSanitize_failures
    (domPurify_sanitize : string -> Config -> option string)
    (data : jsval) (schema : ZodSchema) :
  (forall thrown, validate data schema = Throw thrown ->
     ValidationService.validateAndSanitize domPurify_sanitize data schema = Throw thrown) /\
  (forall m, validate data schema = Ok (JObj m) ->
     (exists k s, k ∈ htmlFields /\ m !! k = Some (JStr s) /\
                  domPurify_sanitize s config = None) ->
     exists e, ValidationService.validateAndSanitize domPurify_sanitize data schema = Throw (ExSecurity e) /\
               code e = INVALID_INPUT /\ message e = "HTML sanitization failed") /\
  (forall thrown, ValidationService.validateAndSanitize domPurify_sanitize data schema = Throw thrown ->
     validate data schema = Throw thrown \/
     exists s, domPurify_sanitize s config = None /\
       thrown = ExSecurity {| message := "HTML sanitization failed";
                              code := INVALID_INPUT;
                              details := Some (SanitizeDetails
                                                 (String.substring 0 100 s ++ "...")) |}).
Proof.
  unfold ValidationService.validateAndSanitize. split; [|split].
  - by intros thrown ->.
  - intros m -> (k & s & Hk & Hks & Hs). cbn [mbind result_bind].
    rewrite (proj2 (containsHtmlContent_obj m)) by eauto.
    rewrite sanitizeHtmlInObject_unfold.
    destruct (for_of_sanitizeField_fails domPurify_sanitize htmlFields
                htmlFields_NoDup m) as [thrown Hrun]; [eauto|].
    rewrite Hrun. cbn [mbind result_bind].
    apply for_of_sanitizeField_throw in Hrun as (s' & _ & ->).
    eexists. by repeat split.
  - intros thrown. destruct (validate data schema) as [v|e]; cbn [mbind result_bind];
      [|intros [= <-]; by left].
    destruct (containsHtmlContent v) eqn:Hhtml; [|discriminate].
    apply containsHtmlContent_true in Hhtml as (m & -> & _).
    rewrite sanitizeHtmlInObject_unfold.
    destruct (for_of htmlFields (sanitizeField domPurify_sanitize) m)
      as [m'|e] eqn:Hrun; cbn [mbind result_bind]; [discriminate|].
    intros [= <-]. right. by apply for_of_sanitizeField_throw in Hrun.
Qed.

Lemma validateAndSanitize_failures_witness :
  (exists e, ValidationService.validateAndSanitize MoreFixtures.brokenSanitizer
               (JObj Fixtures.documentFields) Fixtures.articleSchema
             = Throw (ExSecurity e) /\
             code e = INVALID_INPUT /\ message e = "HTML sanitization failed") /\
  ValidationService.validateAndSanitize MoreFixtures.brokenSanitizer JNull Fixtures.throwingSchema
  = Throw (ExOther "refinement failed").
Proof.
  split.
  - apply (proj1 (proj2 (validateAndSanitize_failures MoreFixtures.brokenSanitizer
             (JObj Fixtures.documentFields) Fixtures.articleSchema))
             Fixtures.documentFields eq_refl).
    exists "content", Fixtures.onclickParagraph.
    split; [apply list_elem_of_here | split; reflexivity].
  - apply (proj1 (validateAndSanitize_failures MoreFixtures.brokenSanitizer
             JNull Fixtures.throwingSchema)).
    reflexivity.
Defined.

(** X10. Whatever [validateAndSanitize] returns is sanitized at the top
    level: every string the result holds under [content], [description],
    [notes] or [html] is an output of DOMPurify on the string the
    validated value held under that name.  No such string reaches the
    caller unsanitized. *)
Theorem validateAndSanitize_output_sanitized
    (domPurify_sanitize : string -> Config -> option string)
    (data : jsval) (schema : ZodSchema) (returned : jsval) :
  ValidationService.validateAndSanitize domPurify_sanitize data schema = Ok returned ->
  forall k t, k ∈ htmlFields -> get_field returned k = Some (JStr t) ->
  exists validated s,
    validate data schema = Ok validated /\
    get_field validated k = Some (JStr s) /\
    domPurify_sanitize s config = Some t.
Proof.
  unfold ValidationService.validateAndSanitize.
  destruct (validate data schema) as [v|e]; cbn [mbind result_bind]; [|discriminate].
  destruct (containsHtmlContent v) eqn:Hhtml.
  - apply containsHtmlContent_true in Hhtml as (m & -> & _).
    rewrite sanitizeHtmlInObject_unfold.
    destruct (for_of htmlFields (sanitizeField domPurify_sanitize) m)
      as [m'|e] eqn:Hrun; cbn [mbind result_bind]; [|discriminate].
    intros [= <-] k t Hk Hkt. simpl in Hkt.
    set (clean := fun s => default s (domPurify_sanitize s config)).
    assert (Hclean : forall k s, k ∈ htmlFields -> m !! k = Some (JStr s) ->
                       domPurify_sanitize s config = Some (clean s)).
    { intros k' s Hk' Hk's. unfold clean.
      destruct (domPurify_sanitize s config) as [c|] eqn:Hs; [reflexivity|].
      destruct (for_of_sanitizeField_fails domPurify_sanitize htmlFields
                  htmlFields_NoDup m) as [thrown Hthrown]; [eauto|].
      congruence. }
    destruct (for_of_sanitizeField domPurify_sanitize clean htmlFields
                htmlFields_NoDup m Hclean) as (m'' & Hrun' & Hlook).
    assert (m'' = m') as -> by congruence.
    rewrite Hlook, (bool_decide_eq_true_2 _ Hk) in Hkt.
    destruct (m !! k) as [[]|] eqn:Hmk; try discriminate Hkt.
    injection Hkt as <-. exists (JObj m), s. split; [reflexivity|].
    split; [exact Hmk | by apply (Hclean k)].
  - intros [= <-] k t Hk Hkt. exfalso.
    destruct v; try discriminate Hkt. simpl in Hkt.
    assert (containsHtmlContent (JObj m) = true)
      by (apply containsHtmlContent_obj; eauto).
    congruence.
Qed.

Lemma validateAndSanitize_output_sanitized_witness :
  exists validated s,
    validate (JObj Fixtures.documentFields) Fixtures.articleSchema = Ok validated /\
    get_field validated "content" = Some (JStr s) /\
    Fixtures.stripOnclick s config = Some "<p>hi</p>".
Proof.
  apply (validateAndSanitize_output_sanitized Fixtures.stripOnclick
           (JObj Fixtures.documentFields) Fixtures.articleSchema
           (JObj (<["content" := JStr "<p>hi</p>"]> Fixtures.documentFields))).
  - vm_compute. reflexivity.
  - apply list_elem_of_here.
  - reflexivity.
Defined.

(** X11. The sanitizer is consulted on nothing but the strings the
    validated value holds under the four top-level names: two sanitizers
    that agree on those strings give the same result.  So a validated
    value with no such string -- a number, an array, an object without
    HTML fields -- is returned as it is even by a sanitizer that always
    throws. *)
Theorem validateAndSanitize_sanitizer_frame
    (domPurify_sanitize other : string -> Config -> option string)
    (data : jsval) (schema : ZodSchema) (validated : jsval) :
  validate data schema = Ok validated ->
  ((forall k s, k ∈ htmlFields -> get_field validated k = Some (JStr s) ->
      domPurify_sanitize s config = other s config) ->
   ValidationService.validateAndSanitize domPurify_sanitize data schema
   = ValidationService.validateAndSanitize other data schema) /\
  ((forall k s, k ∈ htmlFields -> get_field validated k <> Some (JStr s)) ->
   ValidationService.validateAndSanitize domPurify_sanitize data schema = Ok validated).
Proof.
  intros Hvalid. unfold ValidationService.validateAndSanitize. rewrite Hvalid.
  cbn [mbind result_bind]. split.
  - intros Hagree. destruct (containsHtmlContent validated) eqn:Hhtml; [|reflexivity].
    apply containsHtmlContent_true in Hhtml as (m & -> & _).
    rewrite !sanitizeHtmlInObject_unfold.
    by rewrite (for_of_sanitizeField_ext domPurify_sanitize other htmlFields
                  htmlFields_NoDup m Hagree).
  - intros Hnone. destruct (containsHtmlContent validated) eqn:Hhtml; [|reflexivity].
    apply containsHtmlContent_true in Hhtml as (m & -> & k & s & Hk & Hks).
    by destruct (Hnone k s Hk).
Qed.

Lemma validateAndSanitize_sanitizer_frame_witness :
  ValidationService.validateAndSanitize MoreFixtures.brokenSanitizer
    (JObj (<["title" := JStr Fixtures.onclickParagraph]>
           (<["content" := JNum 3]> ∅))) MoreFixtures.anySchema
  = Ok (JObj (<["title" := JStr Fixtures.onclickParagraph]> (<["content" := JNum 3]> ∅))).
Proof.
  apply (proj2 (validateAndSanitize_sanitizer_frame MoreFixtures.brokenSanitizer
           MoreFixtures.brokenSanitizer
           (JObj (<["title" := JStr Fixtures.onclickParagraph]> (<["content" := JNum 3]> ∅)))
           MoreFixtures.anySchema _ eq_refl)).
  intros k s Hk.
  repeat (apply elem_of_cons in Hk as [->|Hk]; [discriminate|]).
  by apply not_elem_of_nil in Hk.
Defined.

(* ===================================================================== *)
(** ** Further properties of the gate, the guard and the error boundary *)
(* ===================================================================== *)

(** Every run of the effect, in one equation. *)
Lemma gate_run
    (domPurify_sanitize : string -> Config -> option string)
    (user : User) (requiredPermissions : list Permission)
    (data : jsval) (validationSchema : option ZodSchema) (w : world) :
  exists final logged,
    validateAndAuthorize domPurify_sanitize user requiredPermissions
      data validationSchema w
    = ({| state := final; calls := (calls w ++ logged)%list |}, Ok tt) /\
    ((exists validated, final = Authorized validated) \/ (exists e, final = Denied e)) /\
    (logged = [] \/ logged = [data]) /\
    forall w', state (run (validateAndAuthorize domPurify_sanitize user
                             requiredPermissions data validationSchema) w') = final.
Proof.
  destruct (hasPermissions user requiredPermissions) eqn:Hperm.
  - destruct (if truthy data then validationSchema else None) as [schema|] eqn:Hschema.
    + assert (truthy data = true /\ validationSchema = Some schema) as [Ht Hs]
        by (destruct (truthy data); [done | discriminate]).
      eexists _, [data]. split; [by rewrite (gate_validates _ _ _ _ _ _ schema)|].
      split; [|split; [by right|]].
      * destruct (ValidationService.validateAndSanitize _ _ _) as [v|[]]; eauto.
      * intros w'. unfold run. by rewrite (gate_validates _ _ _ _ _ _ schema).
    + eexists _, []. split.
      { rewrite gate_nothing_to_validate by done. by rewrite app_nil_r. }
      split; [eauto|]. split; [by left|].
      intros w'. unfold run. by rewrite gate_nothing_to_validate.
  - eexists _, []. split.
    { rewrite gate_permission_denied by done. by rewrite app_nil_r. }
    split; [eauto|]. split; [by left|].
    intros w'. unfold run. by rewrite gate_permission_denied.
Qed.

(** X12. The effect always settles.  For every user, permission list,
    data, schema and starting state, [validateAndAuthorize] itself throws
    nothing, makes at most one call to the pipeline (on the data it was
    given), and leaves a state that is not loading and is either
    authorized with no error or unauthorized with an error -- never both,
    never neither.  The state it leaves does not depend on the state it
    started from, and [SecureComponent] renders its children exactly when
    that state is authorized, the fallback otherwise. *)
Theorem gate_always_settles
    (domPurify_sanitize : string -> Config -> option string)
    (user : User) (requiredPermissions : list Permission)
    (data : jsval) (validationSchema : option ZodSchema) (w w' : world) :
  snd (validateAndAuthorize domPurify_sanitize user requiredPermissions
         data validationSchema w) = Ok tt /\
  (calls (run (validateAndAuthorize domPurify_sanitize user requiredPermissions
                 data validationSchema) w) = calls w \/
   calls (run (validateAndAuthorize domPurify_sanitize user requiredPermissions
                 data validationSchema) w) = (calls w ++ [data])%list) /\
  isLoading (state (run (validateAndAuthorize domPurify_sanitize user
                           requiredPermissions data validationSchema) w)) = false /\
  (isAuthorized (state (run (validateAndAuthorize domPurify_sanitize user
                               requiredPermissions data validationSchema) w)) = true <->
   error (state (run (validateAndAuthorize domPurify_sanitize user
                        requiredPermissions data validationSchema) w)) = None) /\
  state (run (validateAndAuthorize domPurify_sanitize user requiredPermissions
                data validationSchema) w)
  = state (run (validateAndAuthorize domPurify_sanitize user requiredPermissions
                  data validationSchema) w') /\
  render (state (run (validateAndAuthorize domPurify_sanitize user
                        requiredPermissions data validationSchema) w))
  = (if isAuthorized (state (run (validateAndAuthorize domPurify_sanitize user
                                    requiredPermissions data validationSchema) w))
     then Children (state (run (validateAndAuthorize domPurify_sanitize user
                                  requiredPermissions data validationSchema) w))
     else FallbackComponent).
Proof.
  destruct (gate_run domPurify_sanitize user requiredPermissions data
              validationSchema w) as (final & logged & Hrun & Hfinal & Hlogged & Hany).
  rewrite !Hany. unfold run. rewrite Hrun. simpl.
  split; [reflexivity|]. split.
  { destruct Hlogged as [-> | ->]; [left; by rewrite app_nil_r | by right]. }
  destruct Hfinal as [[v ->]|[e ->]]; simpl; repeat split; try done.
Qed.

(** X13. An empty list of required permissions lets everyone through,
    inactive users included: [PermissionGuard] renders its children and
    the gate authorizes.  With a non-empty list an inactive user always
    gets the fallback.  In general the guard shows its children exactly
    when the gate, given no data, ends authorized. *)
Theorem empty_requirement_admits_everyone
    (domPurify_sanitize : string -> Config -> option string)
    (user : User) (requiredPermissions : list Permission) (w : world) :
  PermissionGuard.PermissionGuard user [] true false = true /\
  state (run (validateAndAuthorize domPurify_sanitize user [] JUndefined None) w)
  = Authorized JUndefined /\
  (isActive user = false -> requiredPermissions <> [] ->
   PermissionGuard.PermissionGuard user requiredPermissions true false = false) /\
  (PermissionGuard.PermissionGuard user requiredPermissions true false = true <->
   state (run (validateAndAuthorize domPurify_sanitize user requiredPermissions
                 JUndefined None) w) = Authorized JUndefined).
Proof.
  split; [reflexivity|]. split.
  { unfold run. by rewrite gate_nothing_to_validate. }
  split.
  - intros Hinactive Hne. unfold PermissionGuard.PermissionGuard.
    assert (Hnone : forall q, hasPermission user q = false)
      by (intros q; unfold hasPermission; by rewrite Hinactive).
    assert (Hany : forall ps, hasAnyPermission user ps = false).
    { induction ps as [|q ps IH]; simpl; [reflexivity|]. by rewrite Hnone, IH. }
    rewrite Hany. destruct requiredPermissions as [|p ps]; [by destruct Hne|].
    reflexivity.
  - unfold PermissionGuard.PermissionGuard, run.
    change ((length requiredPermissions =? 0)%nat
            || hasAnyPermission user requiredPermissions)
      with (hasPermissions user requiredPermissions).
    destruct (hasPermissions user requiredPermissions) eqn:Hperm.
    + by rewrite gate_nothing_to_validate.
    + rewrite gate_permission_denied by done. simpl. split; discriminate.
Qed.

Lemma empty_requirement_admits_everyone_witness :
  PermissionGuard.PermissionGuard (Fixtures.userWith false [Fixtures.adminPermission])
    [Fixtures.adminPermission] true false = false.
Proof.
  apply (proj1 (proj2 (proj2 (empty_requirement_admits_everyone Fixtures.stripOnclick
           (Fixtures.userWith false [Fixtures.adminPermission])
           [Fixtures.adminPermission] Fixtures.initialWorld)))).
  - reflexivity.
  - discriminate.
Defined.

(** X14. The error boundary always ends in the error state, and it
    normalizes a thrown value the way the gate's [catch] does: a
    [SecurityError] is kept as it is, anything else becomes
    "Unknown security error" coded [INVALID_INPUT].  So when the pipeline
    throws inside the gate, the error the gate stores is the one the
    boundary would store for the same thrown value.  Once in the error
    state the boundary never renders its children: it calls the fallback
    with the stored error, or shows its notice. *)
Theorem boundary_normalizes_like_gate
    (domPurify_sanitize : string -> Config -> option string)
    (user : User) (requiredPermissions : list Permission)
    (data : jsval) (schema : ZodSchema) (w : world) (thrown : exn) :
  (exists e,
     SecurityErrorBoundary.getDerivedStateFromError thrown
     = {| SecurityErrorBoundary.hasError := true;
          SecurityErrorBoundary.error := Some e |} /\
     (forall e', thrown = ExSecurity e' -> e = e') /\
     ((forall e', thrown <> ExSecurity e') ->
        e = {| message := "Unknown security error"; code := INVALID_INPUT;
               details := None |}) /\
     (forall (children notice : nat) (fallback : SecurityError -> nat),
        SecurityErrorBoundary.render
          (SecurityErrorBoundary.getDerivedStateFromError thrown)
          children (Some fallback) notice = fallback e /\
        SecurityErrorBoundary.render
          (SecurityErrorBoundary.getDerivedStateFromError thrown)
          children None notice = notice /\
        SecurityErrorBoundary.render SecurityErrorBoundary.initialState
          children (Some fallback) notice = children)) /\
  (hasPermissions user requiredPermissions = true -> truthy data = true ->
   ValidationService.validateAndSanitize domPurify_sanitize data schema = Throw thrown ->
   error (state (run (validateAndAuthorize domPurify_sanitize user requiredPermissions
                        data (Some schema)) w))
   = SecurityErrorBoundary.error (SecurityErrorBoundary.getDerivedStateFromError thrown)).
Proof.
  split.
  - destruct thrown as [e|issues|msg]; eexists; (split; [reflexivity|]); repeat split;
      try (intros e' [= ->]; reflexivity); try done.
    intros Hother. by destruct (Hother e).
  - intros Hperm Htruthy Hthrown. unfold run.
    rewrite (gate_validates _ _ _ _ _ _ schema Hperm Htruthy eq_refl), Hthrown.
    by destruct thrown.
Qed.

Lemma boundary_normalizes_like_gate_witness :
  error (state (run (validateAndAuthorize Fixtures.stripOnclick
                       (Fixtures.userWith true []) [] (JNum 1)
                       (Some Fixtures.throwingSchema)) Fixtures.initialWorld))
  = SecurityErrorBoundary.error
      (SecurityErrorBoundary.getDerivedStateFromError (ExOther "refinement failed")).
Proof.
  apply (proj2 (boundary_normalizes_like_gate Fixtures.stripOnclick
           (Fixtures.userWith true []) [] (JNum 1) Fixtures.throwingSchema
           Fixtures.initialWorld (ExOther "refinement failed")));
    reflexivity.
Defined.

(* ===================================================================== *)
(** ** Properties of the BlockSystem *)
(* ===================================================================== *)

Module BlockSystemProps.
Import BlockSystem.

Lemma filter_all {A : Type} (f : A -> bool) (l : list A) :
  (forall x, x ∈ l -> f x = true) -> List.filter f l = l.
Proof.
  induction l as [|x l IH]; intros Hall; simpl; [reflexivity|].
  rewrite (Hall x (list_elem_of_here _ _)), IH; [reflexivity|].
  intros y Hy. apply Hall. by apply list_elem_of_further.
Qed.

Lemma filter_none {A : Type} (f : A -> bool) (l : list A) :
  (forall x, x ∈ l -> f x = false) -> List.filter f l = [].
Proof.
  induction l as [|x l IH]; intros Hnone; simpl; [reflexivity|].
  rewrite (Hnone x (list_elem_of_here _ _)). apply IH.
  intros y Hy. apply Hnone. by apply list_elem_of_further.
Qed.

Lemma filter_map_comm {A B : Type} (g : A -> B) (f : B -> bool) (l : list A) :
  List.filter f (List.map g l) = List.map g (List.filter (fun x => f (g x)) l).
Proof.
  induction l as [|x l IH]; simpl; [reflexivity|].
  destruct (f (g x)); simpl; by rewrite IH.
Qed.

Lemma elem_of_filter {A : Type} (f : A -> bool) (l : list A) (x : A) :
  x ∈ List.filter f l <-> x ∈ l /\ f x = true.
Proof. rewrite !list_elem_of_In. apply filter_In. Qed.

Lemma id_differs (b : Block) (blockId : string) :
  negb (String.eqb (id b) blockId) = true <-> id b <> blockId.
Proof.
  rewrite negb_true_iff. destruct (String.eqb_spec (id b) blockId); split; done.
Qed.

Lemma removeBlock_blocks (blockId : string) (this : BlockSystem) (b : Block) :
  b ∈ blocks (removeBlock blockId this) <-> b ∈ blocks this /\ id b <> blockId.
Proof. unfold removeBlock. simpl. by rewrite elem_of_filter, id_differs. Qed.

(** X15. [removeBlock] removes exactly the blocks with the given id: the
    remaining blocks are the others, in their original order; the id is no
    longer in the editor map and every other entry of the map is as
    before; the element of each removed block is taken out of the
    document, and the registered editor, if there is one, is destroyed.
    Nothing already in the trace is undone. *)
Theorem removeBlock_exact (blockId : string) (this : BlockSystem) :
  (forall b, b ∈ blocks (removeBlock blockId this) <->
             b ∈ blocks this /\ id b <> blockId) /\
  blocks (removeBlock blockId this) `sublist_of` blocks this /\
  editors (removeBlock blockId this) !! blockId = None /\
  (forall other, other <> blockId ->
     editors (removeBlock blockId this) !! other = editors this !! other) /\
  (forall b, b ∈ blocks this -> id b = blockId ->
     RemoveElement (element b) ∈ trace (removeBlock blockId this)) /\
  (forall e, editors this !! blockId = Some e ->
     DestroyEditor e ∈ trace (removeBlock blockId this)) /\
  trace this `prefix_of` trace (removeBlock blockId this).
Proof.
  split; [apply removeBlock_blocks|].
  unfold removeBlock. simpl. split; [|split; [|split; [|split; [|split]]]].
  - apply filter_sublist.
  - apply lookup_delete_eq.
  - intros other Hne. by apply lookup_delete_ne.
  - intros b Hin Hid. rewrite !elem_of_app. right. right.
    apply list_elem_of_fmap. exists b. split; [reflexivity|].
    apply elem_of_filter. split; [exact Hin | by apply String.eqb_eq].
  - intros e ->. rewrite !elem_of_app. right. left. apply list_elem_of_here.
  - by eexists.
Qed.

(** X16. Removing twice is removing once, and removing an id that no block
    and no editor carries changes nothing at all -- no block, no map entry
    and no call to the document or to Tiptap. *)
Theorem removeBlock_idempotent (blockId : string) (this : BlockSystem) :
  removeBlock blockId (removeBlock blockId this) = removeBlock blockId this /\
  ((forall b, b ∈ blocks this -> id b <> blockId) ->
   editors this !! blockId = None ->
   removeBlock blockId this = this).
Proof.
  assert (Habsent : forall s : BlockSystem,
            (forall b, b ∈ blocks s -> id b <> blockId) ->
            editors s !! blockId = None -> removeBlock blockId s = s).
  { intros [bs es tr] Hblocks Heditors. simpl in *. unfold removeBlock. simpl.
    rewrite Heditors. f_equal.
    - apply filter_all. intros b Hb. by apply id_differs, Hblocks.
    - by apply delete_id.
    - rewrite filter_none; [simpl; by rewrite app_nil_r|].
      intros b Hb. apply String.eqb_neq. by apply Hblocks. }
  split; [|apply Habsent].
  apply Habsent.
  - intros b Hb. by apply removeBlock_blocks in Hb as [_ Hne].
  - unfold removeBlock. simpl. apply lookup_delete_eq.
Qed.

Lemma removeBlock_exact_witness :
  blocks (calls [CreateBlock 1 "a" "text" "" ""; CreateBlock 2 "b" "quote" "hi" "";
                 RemoveBlock "block-1-a"])
  `sublist_of`
  blocks (calls [CreateBlock 1 "a" "text" "" ""; CreateBlock 2 "b" "quote" "hi" ""]) /\
  editors (calls [CreateBlock 1 "a" "text" "" ""; CreateBlock 2 "b" "quote" "hi" "";
                  RemoveBlock "block-1-a"]) !! "block-2-b"
  = editors (calls [CreateBlock 1 "a" "text" "" ""; CreateBlock 2 "b" "quote" "hi" ""])
      !! "block-2-b".
Proof.
  split.
  - apply (proj1 (proj2 (removeBlock_exact "block-1-a"
             (calls [CreateBlock 1 "a" "text" "" ""; CreateBlock 2 "b" "quote" "hi" ""])))).
  - apply (proj1 (proj2 (proj2 (proj2 (removeBlock_exact "block-1-a"
             (calls [CreateBlock 1 "a" "text" "" ""; CreateBlock 2 "b" "quote" "hi" ""])))))).
    discriminate.
Defined.

Lemma removeBlock_idempotent_witness :
  removeBlock "block-9-z" (calls [CreateBlock 1 "a" "text" "" ""])
  = calls [CreateBlock 1 "a" "text" "" ""].
Proof.
  apply (proj2 (removeBlock_idempotent "block-9-z" (calls [CreateBlock 1 "a" "text" "" ""]))).
  - intros b ->%list_elem_of_singleton. discriminate.
  - reflexivity.
Defined.

Lemma in_sync_new : in_sync new.
Proof.
  split.
  - intros k. simpl. rewrite lookup_empty. split.
    + by intros [? ?].
    + intros (b & Hb & _). by apply not_elem_of_nil in Hb.
  - intros b Hb. by apply not_elem_of_nil in Hb.
Qed.

(** What [createBlock] adds. *)
Lemma createBlock_fields now random type content placeholder this :
  exists (b : Block) (e : Editor),
    blocks (fst (createBlock now random type content placeholder this))
      = (blocks this ++ [b])%list /\
    editors (fst (createBlock now random type content placeholder this))
      = <[blockId now random := e]> (editors this) /\
    id b = blockId now random /\ editor b = Some e /\ element_id e = id b /\
    element b = {| className := "block"; innerHTML := blockMarkup (id b) (BlockSystem.type b) |}.
Proof. eexists _, _. by repeat split. Qed.

Lemma in_sync_createBlock now random type content placeholder this :
  in_sync this ->
  in_sync (fst (createBlock now random type content placeholder this)).
Proof.
  intros [Hmap Hblocks].
  destruct (createBlock_fields now random type content placeholder this)
    as (nb & ne & Hbs & Hes & Hid & Hed & Hel & Hmarkup).
  split.
  - intros k. rewrite Hbs, Hes.
    destruct (decide (k = blockId now random)) as [->|Hne].
    + rewrite lookup_insert_eq. split; [|by eauto].
      intros _. exists nb. split; [apply elem_of_app; right; apply list_elem_of_here|].
      exact Hid.
    + rewrite lookup_insert_ne by done. rewrite Hmap. split.
      * intros (b & Hb & Hbid). exists b. split; [|exact Hbid].
        apply elem_of_app. by left.
      * intros (b & Hb & Hbid). apply elem_of_app in Hb as [Hb|Hb]; [by eauto|].
        apply list_elem_of_singleton in Hb. subst b. congruence.
  - intros b. rewrite Hbs. intros Hb.
    apply elem_of_app in Hb as [Hb|Hb]; [by apply Hblocks|].
    apply list_elem_of_singleton in Hb. subst b. eauto.
Qed.

Lemma in_sync_removeBlock blockId this :
  in_sync this -> in_sync (removeBlock blockId this).
Proof.
  intros [Hmap Hblocks]. split.
  - intros k. unfold removeBlock at 1. simpl.
    destruct (decide (k = blockId)) as [->|Hne].
    + rewrite lookup_delete_eq. split; [by intros [? ?]|].
      intros (b & Hb & Hid). by apply removeBlock_blocks in Hb as [_ ?].
    + rewrite lookup_delete_ne by done. rewrite Hmap. split.
      * intros (b & Hb & Hid). exists b.
        split; [apply removeBlock_blocks; split; [done | congruence] | done].
      * intros (b & Hb & Hid). apply removeBlock_blocks in Hb as [Hb _]. eauto.
  - intros b Hb. apply removeBlock_blocks in Hb as [Hb _]. by apply Hblocks.
Qed.

Lemma in_sync_foldl (cs : list Call) (this : BlockSystem) :
  in_sync this -> in_sync (foldl call this cs).
Proof.
  revert this. induction cs as [|c cs IH]; intros this Hsync; [exact Hsync|].
  simpl. apply IH. destruct c; [by apply in_sync_createBlock | by apply in_sync_removeBlock].
Qed.

(** X17. After any sequence of [createBlock] and [removeBlock] calls on a
    new BlockSystem -- id collisions included -- the editor map and the
    block list are in step: an id has an editor in the map exactly when
    some block carries that id.  Every block has an editor mounted under
    the block's own id, so [getBlocks] never falls back to the empty
    content, and its element is the markup built from its id and type. *)
Theorem editors_in_step_with_blocks (getHTML : Editor -> string) (cs : list Call) :
  (forall k, is_Some (editors (calls cs) !! k) <->
             exists b, b ∈ blocks (calls cs) /\ id b = k) /\
  (forall b, b ∈ blocks (calls cs) ->
     exists e, editor b = Some e /\ element_id e = id b /\
               element b = {| className := "block";
                              innerHTML := blockMarkup (id b) (type b) |}) /\
  getBlocks getHTML (calls cs) =
    List.map (fun b => {| data_id := id b; data_type := type b;
                          data_content := from_option getHTML "" (editor b) |})
             (blocks (calls cs)) /\
  (forall d, d ∈ getBlocks getHTML (calls cs) ->
     exists e, editors (calls cs) !! data_id d = Some e).
Proof.
  destruct (in_sync_foldl cs new in_sync_new) as [Hmap Hblocks].
  fold (calls cs) in Hmap, Hblocks.
  split; [exact Hmap|]. split; [exact Hblocks|]. split.
  - unfold getBlocks. apply map_ext. intros b. by destruct (editor b).
  - intros d Hd. unfold getBlocks in Hd.
    apply list_elem_of_fmap in Hd as (b & -> & Hb). simpl.
    apply Hmap. eauto.
Qed.

Lemma editors_in_step_with_blocks_witness :
  exists e,
    editors (calls [CreateBlock 1 "a" "text" "" ""; CreateBlock 1 "a" "quote" "hi" "";
                    CreateBlock 2 "b" "list" "" ""; RemoveBlock "block-2-b"])
      !! "block-1-a" = Some e.
Proof.
  apply (proj2 (proj2 (proj2 (editors_in_step_with_blocks MoreFixtures.contentAsHTML
           [CreateBlock 1 "a" "text" "" ""; CreateBlock 1 "a" "quote" "hi" "";
            CreateBlock 2 "b" "list" "" ""; RemoveBlock "block-2-b"])))
           {| data_id := "block-1-a"; data_type := "quote"; data_content := "hi" |}).
  apply list_elem_of_further, list_elem_of_here.
Defined.

(** X18. [getBlocks] follows the calls.  After [createBlock] it is the
    previous list with one entry more at the end, carrying the new id, the
    given type and the HTML of the new editor; the returned block is that
    last block, registered in the map under its id, and an empty
    placeholder is replaced by the default text naming the type.  After
    [removeBlock] it is the previous list without the entries of that id,
    the others in their order. *)
Theorem getBlocks_follows_calls (getHTML : Editor -> string)
    (now : Z) (random type content placeholder : string) (this : BlockSystem) :
  getBlocks getHTML (fst (createBlock now random type content placeholder this))
  = (getBlocks getHTML this ++
     [{| data_id := blockId now random; data_type := type;
         data_content :=
           getHTML {| element_id := blockId now random;
                      editor_placeholder :=
                        if String.eqb placeholder ""
                        then ("Start typing in this " ++ type ++ " block...")%string
                        else placeholder;
                      editor_content := content |} |}])%list /\
  last (blocks (fst (createBlock now random type content placeholder this)))
  = Some (snd (createBlock now random type content placeholder this)) /\
  editors (fst (createBlock now random type content placeholder this))
    !! id (snd (createBlock now random type content placeholder this))
  = editor (snd (createBlock now random type content placeholder this)) /\
  (forall removed,
     getBlocks getHTML (removeBlock removed this)
     = List.filter (fun d => negb (String.eqb (data_id d) removed))
                   (getBlocks getHTML this)) /\
  length (getBlocks getHTML this) = length (blocks this).
Proof.
  split; [|split; [|split; [|split]]].
  - unfold getBlocks, createBlock. simpl. by rewrite map_app.
  - unfold createBlock. simpl. apply last_snoc.
  - unfold createBlock. simpl. apply lookup_insert_eq.
  - intros removed. unfold getBlocks, removeBlock. simpl.
    by rewrite filter_map_comm.
  - unfold getBlocks. apply length_map.
Qed.

(** X19. Creating a block and removing it again leaves the block list and
    the editor map as they were, provided the new id was not in use.  If
    the id was already in use, the removal takes the older blocks of that
    id along: what remains is the previous list without them. *)
Theorem create_then_remove (now : Z) (random type content placeholder : string)
    (this : BlockSystem) :
  blocks (removeBlock (blockId now random)
            (fst (createBlock now random type content placeholder this)))
  = List.filter (fun b => negb (String.eqb (id b) (blockId now random))) (blocks this) /\
  editors (removeBlock (blockId now random)
             (fst (createBlock now random type content placeholder this)))
  = delete (blockId now random) (editors this) /\
  ((forall b, b ∈ blocks this -> id b <> blockId now random) ->
   editors this !! blockId now random = None ->
   blocks (removeBlock (blockId now random)
             (fst (createBlock now random type content placeholder this)))
   = blocks this /\
   editors (removeBlock (blockId now random)
              (fst (createBlock now random type content placeholder this)))
   = editors this).
Proof.
  assert (Hblocks :
    blocks (removeBlock (blockId now random)
              (fst (createBlock now random type content placeholder this)))
    = List.filter (fun b => negb (String.eqb (id b) (blockId now random))) (blocks this)).
  { unfold removeBlock, createBlock. simpl. rewrite List.filter_app. simpl.
    rewrite String.eqb_refl. simpl. apply app_nil_r. }
  assert (Heditors :
    editors (removeBlock (blockId now random)
               (fst (createBlock now random type content placeholder this)))
    = delete (blockId now random) (editors this)).
  { unfold removeBlock, createBlock. simpl. apply delete_insert_eq. }
  split; [exact Hblocks|]. split; [exact Heditors|].
  intros Hfresh Hnone. rewrite Hblocks, Heditors. split.
  - apply filter_all. intros b Hb. by apply id_differs, Hfresh.
  - by apply delete_id.
Qed.

Lemma create_then_remove_witness :
  blocks (removeBlock (blockId 2 "b")
            (fst (createBlock 2 "b" "quote" "hi" ""
                    (calls [CreateBlock 1 "a" "text" "" ""]))))
  = blocks (calls [CreateBlock 1 "a" "text" "" ""]).
Proof.
  apply (proj2 (proj2 (create_then_remove 2 "b" "quote" "hi" ""
           (calls [CreateBlock 1 "a" "text" "" ""])))).
  - intros b ->%list_elem_of_singleton. discriminate.
  - reflexivity.
Defined.

End BlockSystemProps.
